(** * A Rocq model of [src/API/gerrit_api.py]

    The development embeds the part of the Gerrit REST client that carries
    control flow: the response decoder, the pagination helper
    [no_limit_mocker], the commit query with its owner/submitter lookups and
    the duration parser [get_start_time].

    Conventions.
    - Python text ([str]) is a [string] read as a sequence of code points
      below 256; [bytes] is a [string] read as a sequence of octets.
    - Python [int] is [Z].  The interpreter's resource limits (recursion
      depth, memory, the digit limit of int/str conversion of recent
      interpreters) are not part of the model; Python [float] values are not
      represented.
    - The HTTP transport ([requests]) and [json.loads] are parameters. *)

From Stdlib Require Import ZArith List String Ascii Bool Lia.
From Stdlib Require Import Numbers.DecimalString.
Import ListNotations.

Set Warnings "-register-all".

Open Scope string_scope.
Open Scope Z_scope.

(** ** Text *)

Module Text.

(** One-character strings and the characters that Rocq's string syntax
    cannot hold literally. *)
Definition chr (c : ascii) : string := String c EmptyString.
Definition dquote : ascii := "034"%char.
Definition newline : ascii := "010"%char.
Definition code (c : ascii) : Z := Z.of_N (N_of_ascii c).

Fixpoint chars (s : string) : list ascii :=
  match s with
  | EmptyString => []
  | String c t => c :: chars t
  end.

(** [c in chars] for a character. *)
Fixpoint mem (c : ascii) (cs : string) : bool :=
  match cs with
  | EmptyString => false
  | String d t => Ascii.eqb c d || mem c t
  end.

(** [s.startswith(p)] *)
Fixpoint startswith (s p : string) {struct p} : bool :=
  match p, s with
  | EmptyString, _ => true
  | String _ _, EmptyString => false
  | String d p', String c s' => Ascii.eqb c d && startswith s' p'
  end.

(** [sub in s] *)
Fixpoint contains (sub s : string) : bool :=
  startswith s sub
  || match s with
     | EmptyString => false
     | String _ t => contains sub t
     end.

(** [s[n:]] *)
Fixpoint drop (n : nat) (s : string) : string :=
  match n, s with
  | O, _ => s
  | S _, EmptyString => EmptyString
  | S n', String _ t => drop n' t
  end.

(** [s.strip(cs)]: characters of [cs] are removed from both ends. *)
Fixpoint lstrip (cs s : string) : string :=
  match s with
  | EmptyString => EmptyString
  | String c t => if mem c cs then lstrip cs t else s
  end.

Fixpoint rstrip (cs s : string) : string :=
  match s with
  | EmptyString => EmptyString
  | String c t =>
      match rstrip cs t with
      | EmptyString => if mem c cs then EmptyString else chr c
      | r => String c r
      end
  end.

Definition strip (cs s : string) : string := rstrip cs (lstrip cs s).

(** [s.lower()] on code points below 256: A-Z, and the Latin-1 capitals
    U+00C0..U+00DE except the multiplication sign U+00D7. *)
Definition lower_char (c : ascii) : ascii :=
  let n := code c in
  if ((65 <=? n) && (n <=? 90))
     || ((192 <=? n) && (n <=? 222) && negb (n =? 215))
  then ascii_of_N (Z.to_N (n + 32))
  else c.

Fixpoint lower (s : string) : string :=
  match s with
  | EmptyString => EmptyString
  | String c t => String (lower_char c) (lower t)
  end.

Fixpoint join (sep : string) (l : list string) : string :=
  match l with
  | [] => EmptyString
  | [x] => x
  | x :: t => x ++ sep ++ join sep t
  end.

(** [str(n)] for an integer. *)
Definition str_of_Z (z : Z) : string := NilZero.string_of_int (Z.to_int z).

(** Left-padding with zeros to a given width, as the format [%02d]. *)
Fixpoint zeros (n : nat) : string :=
  match n with
  | O => EmptyString
  | S n' => String "0" (zeros n')
  end.

Definition zfill (w : nat) (z : Z) : string :=
  let s := str_of_Z z in
  zeros (w - String.length s) ++ s.

(** *** [int(s)]

    Base-10 conversion of text: optional surrounding white space, an
    optional sign, then digits, where single underscores may separate
    digits.  [None] stands for [ValueError]. *)
Definition is_space (c : ascii) : bool :=
  let n := code c in
  ((9 <=? n) && (n <=? 13)) || (n =? 32) || (n =? 133) || (n =? 160).

Definition is_digit (c : ascii) : bool :=
  let n := code c in (48 <=? n) && (n <=? 57).

Definition digit_val (c : ascii) : Z := code c - 48.

Fixpoint skip_space (s : string) : string :=
  match s with
  | EmptyString => EmptyString
  | String c t => if is_space c then skip_space t else s
  end.

Fixpoint all_space (s : string) : bool :=
  match s with
  | EmptyString => true
  | String c t => is_space c && all_space t
  end.

(** [digits acc s]: [s] comes right after a digit; [acc] is the value
    read so far. *)
Fixpoint digits (acc : Z) (s : string) : option Z :=
  match s with
  | EmptyString => Some acc
  | String c t =>
      if is_digit c then digits (10 * acc + digit_val c) t
      else if Ascii.eqb c "_" then
        match t with
        | String d t' =>
            if is_digit d then digits (10 * acc + digit_val d) t' else None
        | EmptyString => None
        end
      else if all_space s then Some acc
      else None
  end.

Definition unsigned (s : string) : option Z :=
  match s with
  | String c t => if is_digit c then digits (digit_val c) t else None
  | EmptyString => None
  end.

Definition py_int (s : string) : option Z :=
  match skip_space s with
  | String "-" t => option_map Z.opp (unsigned t)
  | String "+" t => unsigned t
  | t => unsigned t
  end.

(** *** [repr] of text and of bytes *)
Definition hex_digit (n : Z) : ascii :=
  if n <? 10 then ascii_of_N (Z.to_N (48 + n))
  else ascii_of_N (Z.to_N (87 + n)).

Definition hex_escape (c : ascii) : string :=
  let n := code c in
  String "\" (String "x" (String (hex_digit (n / 16))
                                 (chr (hex_digit (n mod 16))))).

(** Python chooses the double quote only when the text holds an
    apostrophe and no double quote. *)
Definition quote_for (s : string) : ascii :=
  if mem "'" s && negb (mem dquote s) then dquote else "'"%char.

(** Code points that [str.isprintable] rejects below 256. *)
Definition unprintable (c : ascii) : bool :=
  let n := code c in
  (n <? 32) || ((127 <=? n) && (n <=? 160)) || (n =? 173).

Definition escape_char (q : ascii) (bytes : bool) (c : ascii) : string :=
  if Ascii.eqb c q || Ascii.eqb c "\" then String "\" (chr c)
  else if Ascii.eqb c "009" then "\t"
  else if Ascii.eqb c "010" then "\n"
  else if Ascii.eqb c "013" then "\r"
  else if (if bytes then (code c <? 32) || (127 <=? code c)
           else unprintable c)
  then hex_escape c
  else chr c.

Fixpoint escape (q : ascii) (bytes : bool) (s : string) : string :=
  match s with
  | EmptyString => EmptyString
  | String c t => escape_char q bytes c ++ escape q bytes t
  end.

Definition repr_str (s : string) : string :=
  let q := quote_for s in chr q ++ escape q false s ++ chr q.

Definition repr_bytes (s : string) : string :=
  let q := quote_for s in "b" ++ chr q ++ escape q true s ++ chr q.

End Text.

Import Text.

(** ** Python values *)

(** The values that travel through the client: what the transport hands
    back (nothing, raw bytes, text, or an already parsed JSON document) and
    what [json.loads] builds.  A dictionary keeps its insertion order and
    has text keys, as every JSON object does; a key occurs once. *)
Inductive value : Type :=
| PNone
| PBool (b : bool)
| PInt (z : Z)
| PStr (s : string)
| PBytes (s : string)
| PList (l : list value)
| PDict (kv : list (string * value)).

Fixpoint py_repr (v : value) : string :=
  match v with
  | PNone => "None"
  | PBool true => "True"
  | PBool false => "False"
  | PInt z => str_of_Z z
  | PStr s => repr_str s
  | PBytes s => repr_bytes s
  | PList l => "[" ++ join ", " (map py_repr l) ++ "]"
  | PDict kv =>
      "{" ++ join ", " (map (fun p => repr_str (fst p) ++ ": " ++ py_repr (snd p)) kv)
          ++ "}"
  end.

(** [str(v)], also what an f-string field [{v}] renders. *)
Definition py_str (v : value) : string :=
  match v with
  | PStr s => s
  | _ => py_repr v
  end.

(** Truth value of an object. *)
Definition truthy (v : value) : bool :=
  match v with
  | PNone => false
  | PBool b => b
  | PInt z => negb (z =? 0)
  | PStr s | PBytes s => negb (String.eqb s EmptyString)
  | PList l => match l with [] => false | _ => true end
  | PDict kv => match kv with [] => false | _ => true end
  end.

(** ** Exceptions and outcomes *)

Inductive exn : Type :=
| ValueError
| TypeError
| AttributeError
| OverflowError
| UnboundLocalError.

(** What running a piece of the program gives: a value, an exception that
    escapes, or no answer within the recursion depth granted to the model. *)
Inductive outcome (A : Type) : Type :=
| Ok (a : A)
| Raise (e : exn)
| OutOfFuel.

Arguments Ok {A} a.
Arguments Raise {A} e.
Arguments OutOfFuel {A}.

Definition obind {A B : Type} (m : outcome A) (k : A -> outcome B) : outcome B :=
  match m with
  | Ok a => k a
  | Raise e => Raise e
  | OutOfFuel => OutOfFuel
  end.

Notation "x <~ m ;; k" := (obind m (fun x => k))
  (at level 61, m at next level, right associativity).

(** [int(s)] raises [ValueError] on text that is not a base-10 literal. *)
Definition int (s : string) : outcome Z :=
  match py_int s with
  | Some z => Ok z
  | None => Raise ValueError
  end.

(** ** Instants and durations *)

Module Datetime.

(** A naive [datetime] is the number of microseconds since
    0001-01-01 00:00:00; a [timedelta] is a number of microseconds. *)
Definition datetime : Type := Z.
Definition timedelta : Type := Z.

Definition us_per_second : Z := 1000000.
Definition us_per_minute : Z := 60 * us_per_second.
Definition us_per_hour : Z := 60 * us_per_minute.
Definition us_per_day : Z := 24 * us_per_hour.

(** [datetime.max] is the last microsecond of year 9999, day 3652059 of
    the calendar. *)
Definition max_days : Z := 3652059.
Definition in_range (t : Z) : bool := (0 <=? t) && (t <? max_days * us_per_day).

(** [timedelta(days=d, hours=h, minutes=m)]: the day count of the
    normalised duration must have magnitude at most 999999999. *)
Definition timedelta_new (days hours minutes : Z) : outcome timedelta :=
  let us := days * us_per_day + hours * us_per_hour + minutes * us_per_minute in
  if Z.abs (us / us_per_day) <=? 999999999 then Ok us else Raise OverflowError.

(** [timedelta(months=n)]: the constructor has no such keyword. *)
Definition timedelta_months (n : Z) : outcome timedelta := Raise TypeError.

(** [t - d] *)
Definition datetime_sub (t : datetime) (d : timedelta) : outcome datetime :=
  if in_range (t - d) then Ok (t - d) else Raise OverflowError.

(** Year, month and day of the day numbered [n] from 0001-01-01 (day 0),
    in the proleptic Gregorian calendar; the count is shifted to the
    400-year cycle that starts on 1 March of year 0. *)
Definition civil (n : Z) : Z * Z * Z :=
  let z := n + 306 in
  let era := z / 146097 in
  let doe := z mod 146097 in
  let yoe := (doe - doe / 1460 + doe / 36524 - doe / 146096) / 365 in
  let doy := doe - (365 * yoe + yoe / 4 - yoe / 100) in
  let mp := (5 * doy + 2) / 153 in
  let d := doy - (153 * mp + 2) / 5 + 1 in
  let m := if mp <? 10 then mp + 3 else mp - 9 in
  let y := yoe + era * 400 + (if m <=? 2 then 1 else 0) in
  (y, m, d).

(** [str(t)]: [YYYY-MM-DD HH:MM:SS], with [.ffffff] when the microsecond
    is not zero. *)
Definition datetime_str (t : datetime) : string :=
  let '(y, m, d) := civil (t / us_per_day) in
  let r := t mod us_per_day in
  let us := r mod us_per_second in
  zfill 4 y ++ "-" ++ zfill 2 m ++ "-" ++ zfill 2 d ++ " "
    ++ zfill 2 (r / us_per_hour) ++ ":"
    ++ zfill 2 (r mod us_per_hour / us_per_minute) ++ ":"
    ++ zfill 2 (r mod us_per_minute / us_per_second)
    ++ (if us =? 0 then "" else "." ++ zfill 6 us).

End Datetime.

Import Datetime.

(** ** [GerritApi.get_start_time]

    The local [start] is unbound until a branch assigns it.  The test for
    minutes is an [if] of its own; hours, days and months form one
    [if]/[elif] chain after it. *)
Definition get_start_time (duration : value) (stop : datetime) : outcome datetime :=
  let d := lower (py_str duration) in
  start <~ (if contains "minutes" d then
              min_delta <~ int (strip "minutes" d) ;;
              delta <~ timedelta_new 0 0 min_delta ;;
              s <~ datetime_sub stop delta ;;
              Ok (Some s)
            else Ok None) ;;
  start <~ (if contains "hours" d then
              hour_delta <~ int (strip "hours" d) ;;
              delta <~ timedelta_new 0 hour_delta 0 ;;
              s <~ datetime_sub stop delta ;;
              Ok (Some s)
            else if contains "days" d then
              day_delta <~ int (strip "days" d) ;;
              delta <~ timedelta_new day_delta 0 0 ;;
              s <~ datetime_sub stop delta ;;
              Ok (Some s)
            else if contains "months" d then
              month_delta <~ int (strip "months" d) ;;
              delta <~ timedelta_months month_delta ;;
              s <~ datetime_sub stop delta ;;
              Ok (Some s)
            else Ok start) ;;
  match start with
  | Some s => Ok s
  | None => Raise UnboundLocalError
  end.

(** ** Operations on values *)

Fixpoint dict_get (kv : list (string * value)) (k : string) : value :=
  match kv with
  | [] => PNone
  | (k', v) :: t => if String.eqb k k' then v else dict_get t k
  end.

(** An existing key keeps its position; a new key goes last. *)
Fixpoint dict_set (kv : list (string * value)) (k : string) (x : value)
  : list (string * value) :=
  match kv with
  | [] => [(k, x)]
  | (k', v) :: t => if String.eqb k k' then (k', x) :: t else (k', v) :: dict_set t k x
  end.

(** [v.get(k)]: only a dictionary has the method. *)
Definition py_get (v : value) (k : string) : outcome value :=
  match v with
  | PDict kv => Ok (dict_get kv k)
  | _ => Raise AttributeError
  end.

(** [v[k] = x] for a text key [k]. *)
Definition py_setitem (v : value) (k : string) (x : value) : outcome value :=
  match v with
  | PDict kv => Ok (PDict (dict_set kv k x))
  | _ => Raise TypeError
  end.

(** Iteration: a list gives its items, a dictionary its keys, text its
    characters, bytes their codes; nothing else is iterable. *)
Definition py_iter (v : value) : outcome (list value) :=
  match v with
  | PList l => Ok l
  | PDict kv => Ok (map (fun p => PStr (fst p)) kv)
  | PStr s => Ok (map (fun c => PStr (chr c)) (chars s))
  | PBytes s => Ok (map (fun c => PInt (code c)) (chars s))
  | PNone | PBool _ | PInt _ => Raise TypeError
  end.

(** [l.extend(x)] *)
Definition extend (l : list value) (x : value) : outcome (list value) :=
  items <~ py_iter x ;; Ok (l ++ items)%list.

(** ** The world around the client *)

Inductive level : Type := INFO | ERROR.

(** What the client does that can be observed from outside: requests sent
    through [RestEngine.rest_request], records handed to [logging], lines
    printed. *)
Inductive event : Type :=
| Request (uri : string)
| Log (lvl : level) (msg : string)
| Print (line : string).

(** The triple returned by [RestEngine.rest_request]. *)
Record rest_response : Type := {
  response_code : value;
  response_body : value;
  response_headers : value
}.

(** Instance state of [GerritApi] read by the methods below. *)
Record GerritApi : Type := { gerrit_url : string }.

(** Default parameter values are computed when the [def] statement runs,
    that is when the class body is executed. *)
Record GerritApi_class : Type := { stop_default : datetime }.

(** An argument that may be left out, with the default of the signature. *)
Definition arg {A : Type} (default : A) (given : option A) : A :=
  match given with
  | Some a => a
  | None => default
  end.

(** Lines 110-111 of [get_commit_details_in_given_period], and the text that
    the f-strings make of [start] afterwards: a [start] that is given is used
    as it is, otherwise the window opens [duration] before [stop]. *)
Definition start_text (start duration : value) (stop : datetime) : outcome string :=
  if negb (truthy start)
  then t <~ get_start_time duration stop ;; Ok (datetime_str t)
  else Ok (py_str start).

Definition GET_COMMITS_USING_AFTER : string := "/changes/?q=after:".
Definition gerrit_magic_json_prefix : string := ")]}'" ++ chr newline.

Section Client.

(** The server behind the transport, with a state of its own: [serve s u]
    is what [rest_request] returns for a GET of [u] in state [s] (a triple
    of [None]s after a transport failure) and the next state. *)
Variable St : Type.
Variable serve : St -> string -> rest_response * St.

(** [json.loads]; [None] stands for [ValueError] (a [JSONDecodeError]). *)
Variable json_loads : string -> option value.

Record world : Type := {
  server : St;
  clock : datetime;
  trace : list event
}.

Definition M (A : Type) : Type := world -> outcome A * world.

Definition ret {A : Type} (a : A) : M A := fun w => (Ok a, w).

Definition bind {A B : Type} (m : M A) (k : A -> M B) : M B :=
  fun w =>
    match m w with
    | (Ok a, w') => k a w'
    | (Raise e, w') => (Raise e, w')
    | (OutOfFuel, w') => (OutOfFuel, w')
    end.

Definition lift {A : Type} (o : outcome A) : M A := fun w => (o, w).

Definition emit (e : event) : M unit :=
  fun w => (Ok tt, {| server := server w; clock := clock w;
                      trace := (trace w ++ [e])%list |}).

Definition utcnow : M datetime := fun w => (Ok (clock w), w).

Definition rest_request (uri : string) : M rest_response :=
  fun w =>
    let (r, s) := serve (server w) uri in
    (Ok r, {| server := s; clock := clock w;
              trace := (trace w ++ [Request uri])%list |}).

Notation "x <- m ;; k" := (bind m (fun x => k))
  (at level 61, m at next level, right associativity).
Notation "m ;;; k" := (bind m (fun _ => k))
  (at level 61, right associativity).

Fixpoint for_each {A B : Type} (body : A -> M B) (l : list A) : M (list B) :=
  match l with
  | [] => ret []
  | a :: t => b <- body a ;; bs <- for_each body t ;; ret (b :: bs)
  end.

(** Execution of the class body: the default of [stop] is read from the
    clock here, once. *)
Definition class_GerritApi : M GerritApi_class :=
  now <- utcnow ;; ret {| stop_default := now |}.

(** *** [GerritApi.decode_response] *)
Definition decode_response (response : rest_response) : M value :=
  let output := response_body response in
  let text :=
    (* [str(response[0]) == '200' and isinstance(response[1], str)] *)
    if String.eqb (py_str (response_code response)) "200"
    then match response_body response with PStr s => Some s | _ => None end
    else None in
  match text with
  | Some s =>
      if startswith s gerrit_magic_json_prefix then
        let output := drop (String.length gerrit_magic_json_prefix) s in
        match json_loads output with
        | Some v => ret v
        | None =>
            emit (Log ERROR ("Invalid Json in response " ++ output)) ;;;
            ret (PStr output)
        end
      else ret output
  | None =>
      emit (Log ERROR ("Rest Call Failed with the status code "
                         ++ py_str (response_code response)
                         ++ " and response "
                         ++ py_str (response_body response))) ;;;
      ret output
  end.

(** *** [GerritApi.no_limit_mocker]

    [fuel] bounds the depth of the recursion.  The list [mocker_response]
    is one object shared by all the calls: each call extends it in place
    and returns it, so what the outer call returns is the list as the
    inner call left it. *)
Fixpoint no_limit_mocker (fuel : nat) (response : value)
         (mocker_response : list value) (url_to_be_used : string)
         (def_limit : Z) : M (list value) :=
  if contains "_more_" (py_str response) then
    let def_limit := def_limit + 500 in
    let start_limit := def_limit - 500 + 1 in
    emit (Log INFO ("Fetching " ++ str_of_Z start_limit ++ " - "
                      ++ str_of_Z def_limit ++ " Records. Please Wait...")) ;;;
    let new_url := url_to_be_used ++ "&S=" ++ str_of_Z def_limit ++ "&n=500" in
    r <- rest_request new_url ;;
    int_response <- decode_response r ;;
    mocker_response <- lift (extend mocker_response int_response) ;;
    match fuel with
    | O => lift OutOfFuel
    | S fuel' =>
        no_limit_mocker fuel' int_response mocker_response url_to_be_used def_limit
    end
  else
    let def_limit := def_limit + 500 in
    let new_url := url_to_be_used ++ "&S=" ++ str_of_Z def_limit ++ "&n=500" in
    r <- rest_request new_url ;;
    int_response <- decode_response r ;;
    mocker_response <- lift (extend mocker_response int_response) ;;
    ret mocker_response.

(** *** [GerritApi.get_commit_details_in_given_period] *)

(** Lines 109-119: the first page, then the pages gathered by
    [no_limit_mocker].  The result is the merged list with the text of
    [start], which the caller prints at the end. *)
Definition fetch_commits (fuel : nat) (cls : GerritApi_class) (self : GerritApi)
           (start duration : option value) (stop : option datetime)
  : M (list value * string) :=
  let start := arg PNone start in
  let duration := arg (PStr "24Hours") duration in
  let stop := arg (stop_default cls) stop in
  start <- lift (start_text start duration stop) ;;
  let commits_url := gerrit_url self ++ GET_COMMITS_USING_AFTER
                       ++ chr dquote ++ start ++ chr dquote ++ "&S=0" in
  emit (Print commits_url) ;;;
  r <- rest_request commits_url ;;
  response <- decode_response r ;;
  all_commits_list <- lift (extend [] response) ;;
  mocker_response <-
    no_limit_mocker fuel response []
      (gerrit_url self ++ GET_COMMITS_USING_AFTER
         ++ chr dquote ++ start ++ chr dquote) 0 ;;
  ret (if truthy (PList mocker_response)
       then (all_commits_list ++ mocker_response)%list
       else all_commits_list,
       start).

(** Lines 121-127: the body of the loop over the merged list.  The record
    is updated in place; the updated record is returned. *)
Definition resolve_commit (self : GerritApi) (each_commit : value) : M value :=
  owner <- lift (py_get each_commit "owner") ;;
  account_id <- lift (py_get owner "_account_id") ;;
  let owner_account_url :=
    gerrit_url self ++ "/accounts/" ++ py_str account_id ++ "/detail" in
  r <- rest_request owner_account_url ;;
  detail <- decode_response r ;;
  name <- lift (py_get detail "name") ;;
  each_commit <- lift (py_setitem each_commit "owner" name) ;;
  submitter <- lift (py_get each_commit "submitter") ;;
  if truthy submitter then
    submitter <- lift (py_get each_commit "submitter") ;;
    submitter_id <- lift (py_get submitter "_account_id") ;;
    let submit_account_url :=
      gerrit_url self ++ "/accounts/" ++ py_str submitter_id ++ "/detail" in
    r <- rest_request submit_account_url ;;
    detail <- decode_response r ;;
    name <- lift (py_get detail "name") ;;
    lift (py_setitem each_commit "submitter" name)
  else ret each_commit.

Definition get_commit_details_in_given_period
           (fuel : nat) (cls : GerritApi_class) (self : GerritApi)
           (start duration : option value) (stop : option datetime)
  : M (list value) :=
  fetched <- fetch_commits fuel cls self start duration stop ;;
  let (all_commits_list, start) := fetched in
  all_commits_list <- for_each (resolve_commit self) all_commits_list ;;
  emit (Print ("Total commits from " ++ start ++ " is: "
                 ++ str_of_Z (Z.of_nat (List.length all_commits_list)))) ;;;
  ret all_commits_list.

End Client.

Arguments server {St} w.
Arguments clock {St} w.
Arguments trace {St} w.
Arguments ret {St A} a w.
Arguments bind {St A B} m k w.
Arguments lift {St A} o w.
Arguments emit {St} e w.
Arguments utcnow {St} w.
Arguments for_each {St A B} body l w.
Arguments class_GerritApi {St} w.
Arguments decode_response {St} json_loads response w.

(** ** The other queries of [GerritApi] *)

Definition GET_ALL_REPO_URI : string := "/projects/?d".

(** [v.items()]: only a dictionary has the method. *)
Definition py_items (v : value) : outcome (list (string * value)) :=
  match v with
  | PDict kv => Ok kv
  | _ => Raise AttributeError
  end.

(** [v == s] for a text [s]: no other kind of value equals a text. *)
Definition py_eq_text (v : value) (s : string) : bool :=
  match v with
  | PStr t => String.eqb t s
  | _ => false
  end.

(** The dictionary that [get_all_projects] builds for one project, by a
    literal with the three keys [id], [description] and [state]: a record
    here, so that [value["state"]] in [get_all_active_projects] is the
    field. *)
Record repo_details : Type := {
  repo_id : value;
  repo_description : value;
  repo_state : value
}.

Definition repo_details_value (d : repo_details) : value :=
  PDict [("id", repo_id d); ("description", repo_description d);
         ("state", repo_state d)].

(** [all[k] = x] on the dictionary of the projects. *)
Fixpoint repo_set (all : list (string * repo_details)) (k : string)
         (x : repo_details) : list (string * repo_details) :=
  match all with
  | [] => [(k, x)]
  | (k', d) :: t => if String.eqb k k' then (k', x) :: t else (k', d) :: repo_set t k x
  end.

(** The dictionary of the projects as a value, for [str]. *)
Definition all_repo_value (all : list (string * repo_details)) : value :=
  PDict (map (fun p => (fst p, repo_details_value (snd p))) all).

(** Lines 62-64: the loop over the items of the answer.  Each value is asked
    for its three fields with [get]. *)
Fixpoint collect_repos (items : list (string * value))
         (all_repo_details : list (string * repo_details))
  : outcome (list (string * repo_details)) :=
  match items with
  | [] => Ok all_repo_details
  | (key, v) :: t =>
      id <~ py_get v "id" ;;
      description <~ py_get v "description" ;;
      state <~ py_get v "state" ;;
      collect_repos t
        (repo_set all_repo_details key
           {| repo_id := id; repo_description := description; repo_state := state |})
  end.

Section Queries.

Variable St : Type.
Variable serve : St -> string -> rest_response * St.
Variable json_loads : string -> option value.

Notation "x <- m ;; k" := (bind m (fun x => k))
  (at level 61, m at next level, right associativity).
Notation "m ;;; k" := (bind m (fun _ => k))
  (at level 61, right associativity).

(** *** [GerritApi.get_all_projects] *)
Definition get_all_projects (self : GerritApi)
  : M St (list (string * repo_details)) :=
  let get_all_repo_url := gerrit_url self ++ GET_ALL_REPO_URI in
  r <- rest_request St serve get_all_repo_url ;;
  all_repo_resp <- decode_response json_loads r ;;
  items <- lift (py_items all_repo_resp) ;;
  all_repo_details <- lift (collect_repos items []) ;;
  emit (Log INFO ("List of All repositories : "
                    ++ py_str (all_repo_value all_repo_details) ++ " "
                    ++ str_of_Z (Z.of_nat (List.length all_repo_details)))) ;;;
  ret all_repo_details.

(** *** [GerritApi.get_all_active_projects] *)
Definition get_all_active_projects (self : GerritApi) : M St (list string) :=
  all_repo_details <- get_all_projects self ;;
  let active_repo_list :=
    map fst (filter (fun p => py_eq_text (repo_state (snd p)) "ACTIVE")
                    all_repo_details) in
  emit (Log INFO ("List of active repositories : "
                    ++ py_str (PList (map PStr active_repo_list)) ++ " "
                    ++ str_of_Z (Z.of_nat (List.length active_repo_list)))) ;;;
  ret active_repo_list.

(** *** [GerritApi.get_active_user_accounts] *)



End Queries.

(** ** A reader for JSON documents

    The instance of [json_loads] used to run the client on concrete server
    answers.  It reads the documents made of [null], [true], [false],
    integers, strings without escape sequences, arrays and objects; any
    other text (fractions, exponents, escapes included) is refused, so it
    agrees with [json.loads] on the documents it accepts. *)
Module Json.

Definition is_ws (c : ascii) : bool :=
  let n := code c in (n =? 32) || (n =? 9) || (n =? 10) || (n =? 13).

Fixpoint skip_ws (s : string) : string :=
  match s with
  | EmptyString => EmptyString
  | String c t => if is_ws c then skip_ws t else s
  end.

(** Text up to the closing quote; control characters and the backslash
    are refused. *)
Fixpoint read_string (s : string) : option (string * string) :=
  match s with
  | EmptyString => None
  | String c t =>
      if Ascii.eqb c dquote then Some (EmptyString, t)
      else if Ascii.eqb c "\" || (code c <? 32) then None
      else match read_string t with
           | Some (x, rest) => Some (String c x, rest)
           | None => None
           end
  end.

Fixpoint read_digits (acc : Z) (s : string) : Z * string :=
  match s with
  | String c t => if is_digit c then read_digits (10 * acc + digit_val c) t
                  else (acc, s)
  | EmptyString => (acc, s)
  end.

(** [0], or a digit from 1 to 9 followed by digits; a fraction or an
    exponent after it is refused. *)
Definition read_nat (s : string) : option (Z * string) :=
  match s with
  | String c t =>
      if negb (is_digit c) then None
      else
        let (n, rest) := if Ascii.eqb c "0" then (0, t)
                         else read_digits (digit_val c) t in
        match rest with
        | String d _ =>
            if is_digit d || mem d ".eE" then None else Some (n, rest)
        | EmptyString => Some (n, rest)
        end
  | EmptyString => None
  end.

Fixpoint read_value (fuel : nat) (s : string) : option (value * string) :=
  match fuel with
  | O => None
  | S fuel' =>
      match skip_ws s with
      | String c t =>
          if Ascii.eqb c "[" then
            match skip_ws t with
            | String "]" t' => Some (PList [], t')
            | _ => match read_items fuel' t with
                   | Some (l, rest) => Some (PList l, rest)
                   | None => None
                   end
            end
          else if Ascii.eqb c "{" then
            match skip_ws t with
            | String "}" t' => Some (PDict [], t')
            | _ => match read_members fuel' [] t with
                   | Some (kv, rest) => Some (PDict kv, rest)
                   | None => None
                   end
            end
          else if Ascii.eqb c dquote then
            match read_string t with
            | Some (x, rest) => Some (PStr x, rest)
            | None => None
            end
          else if Ascii.eqb c "-" then
            match read_nat t with
            | Some (n, rest) => Some (PInt (- n), rest)
            | None => None
            end
          else if startswith (String c t) "null" then Some (PNone, drop 4 (String c t))
          else if startswith (String c t) "true" then Some (PBool true, drop 4 (String c t))
          else if startswith (String c t) "false" then Some (PBool false, drop 5 (String c t))
          else match read_nat (String c t) with
               | Some (n, rest) => Some (PInt n, rest)
               | None => None
               end
      | EmptyString => None
      end
  end

with read_items (fuel : nat) (s : string) : option (list value * string) :=
  match fuel with
  | O => None
  | S fuel' =>
      match read_value fuel' s with
      | Some (v, rest) =>
          match skip_ws rest with
          | String "," rest' =>
              match read_items fuel' rest' with
              | Some (l, rest'') => Some (v :: l, rest'')
              | None => None
              end
          | String "]" rest' => Some ([v], rest')
          | _ => None
          end
      | None => None
      end
  end

with read_members (fuel : nat) (acc : list (string * value)) (s : string)
  : option (list (string * value) * string) :=
  match fuel with
  | O => None
  | S fuel' =>
      match skip_ws s with
      | String c t =>
          if negb (Ascii.eqb c dquote) then None
          else
            match read_string t with
            | Some (k, rest) =>
                match skip_ws rest with
                | String ":" rest' =>
                    match read_value fuel' rest' with
                    | Some (v, rest'') =>
                        match skip_ws rest'' with
                        | String "," r => read_members fuel' (dict_set acc k v) r
                        | String "}" r => Some (dict_set acc k v, r)
                        | _ => None
                        end
                    | None => None
                    end
                | _ => None
                end
            | None => None
            end
      | EmptyString => None
      end
  end.

Definition loads (s : string) : option value :=
  match read_value (S (String.length s)) s with
  | Some (v, rest) =>
      match skip_ws rest with
      | EmptyString => Some v
      | _ => None
      end
  | None => None
  end.

End Json.

(** ** Vocabulary of the statements *)

(** The value [decode_response] returns for a response, apart from what it
    logs. *)
Definition decoded (json_loads : string -> option value) (r : rest_response)
  : value :=
  match response_body r with
  | PStr s =>
      if String.eqb (py_str (response_code r)) "200"
         && startswith s gerrit_magic_json_prefix
      then
        let rest := drop (String.length gerrit_magic_json_prefix) s in
        match json_loads rest with
        | Some v => v
        | None => PStr rest
        end
      else PStr s
  | b => b
  end.

(** [w] with the events [evs] added to its trace. *)
Definition log_to {St : Type} (w : world St) (evs : list event) : world St :=
  {| server := server w; clock := clock w; trace := (trace w ++ evs)%list |}.

(** What [decode_response] logs: at most one error record. *)
Definition decode_log (json_loads : string -> option value) (r : rest_response)
  : list event :=
  if String.eqb (py_str (response_code r)) "200" then
    match response_body r with
    | PStr s =>
        if startswith s gerrit_magic_json_prefix then
          let rest := drop (String.length gerrit_magic_json_prefix) s in
          match json_loads rest with
          | Some _ => []
          | None => [Log ERROR ("Invalid Json in response " ++ rest)]
          end
        else []
    | b => [Log ERROR ("Rest Call Failed with the status code "
                         ++ py_str (response_code r) ++ " and response "
                         ++ py_str b)]
    end
  else [Log ERROR ("Rest Call Failed with the status code "
                     ++ py_str (response_code r) ++ " and response "
                     ++ py_str (response_body r))].

(** The requests of a trace, oldest first. *)
Fixpoint requests (t : list event) : list string :=
  match t with
  | [] => []
  | Request u :: t' => u :: requests t'
  | _ :: t' => requests t'
  end.

(** The error records of a trace. *)
Fixpoint errors (t : list event) : list string :=
  match t with
  | [] => []
  | Log ERROR m :: t' => m :: errors t'
  | _ :: t' => errors t'
  end.

(** The test [no_limit_mocker] applies to the previous page. *)
Definition has_more (page : value) : bool := contains "_more_" (py_str page).

(** The address of the page that starts at offset [offset]. *)
Definition page_url (url : string) (offset : Z) : string :=
  url ++ "&S=" ++ str_of_Z offset ++ "&n=500".

Section Pages.

Variable St : Type.
Variable serve : St -> string -> rest_response * St.
Variable json_loads : string -> option value.

(** The decoded answers to the [k] page requests that follow offset
    [offset], asked one after the other from server state [s], and the
    state of the server after them. *)
Fixpoint pages (k : nat) (url : string) (offset : Z) (s : St) : list value :=
  match k with
  | O => []
  | S k' =>
      let (r, s') := serve s (page_url url (offset + 500)) in
      decoded json_loads r :: pages k' url (offset + 500) s'
  end.

Fixpoint after_pages (k : nat) (url : string) (offset : Z) (s : St) : St :=
  match k with
  | O => s
  | S k' => after_pages k' url (offset + 500) (snd (serve s (page_url url (offset + 500))))
  end.

Fixpoint page_urls (k : nat) (url : string) (offset : Z) : list string :=
  match k with
  | O => []
  | S k' => page_url url (offset + 500) :: page_urls k' url (offset + 500)
  end.

(** The world after one request and the decoding of its answer. *)
Definition fetched (u : string) (w : world St) : world St :=
  {| server := snd (serve (server w) u);
     clock := clock w;
     trace := (trace w ++ Request u :: decode_log json_loads (fst (serve (server w) u)))%list |}.

End Pages.

(** Two worlds that differ at most by the time their clocks show. *)
Definition same_but_clock {St : Type} (w1 w2 : world St) : Prop :=
  server w1 = server w2 /\ trace w1 = trace w2.

(** Whether the text [_more_] occurs in some text of a value: a key, a text
    or bytes item, at any depth. *)
Fixpoint mentions_more (v : value) : bool :=
  match v with
  | PStr s | PBytes s => contains "_more_" s
  | PList l => existsb mentions_more l
  | PDict kv =>
      existsb (fun p => contains "_more_" (fst p) || mentions_more (snd p)) kv
  | PNone | PBool _ | PInt _ => false
  end.

(** The reading of the continuation marker that the specification gives: the
    last record of the page has a field whose name starts with [_more_] and
    whose value is true. *)
Definition spec_marker_field (p : string * value) : bool :=
  startswith (fst p) "_more_" && truthy (snd p).

Definition spec_signals_more (page : value) : bool :=
  match page with
  | PList l =>
      match last l PNone with
      | PDict kv => existsb spec_marker_field kv
      | _ => false
      end
  | _ => false
  end.



(** How many of the four unit keywords occur in a text. *)
Definition units_found (d : string) : nat :=
  List.length (filter (fun k => contains k d) ["minutes"; "hours"; "days"; "months"]).

(** Every page but the last of [p :: ps] passes the test of
    [no_limit_mocker], the last one does not. *)
Fixpoint last_only_unmarked (p : value) (ps : list value) : bool :=
  match ps with
  | [] => negb (has_more p)
  | q :: qs => has_more p && last_only_unmarked q qs
  end.

(** The address of the detail of an account. *)
Definition account_url (self : GerritApi) (account_id : value) : string :=
  gerrit_url self ++ "/accounts/" ++ py_str account_id ++ "/detail".

(** The records done so far, put before the result of the rest of the
    loop. *)
Definition continue_with {St : Type} (done : list value)
           (r : outcome (list value) * world St) : outcome (list value) * world St :=
  match r with
  | (Ok rs, w) => (Ok (done ++ rs)%list, w)
  | (Raise e, w) => (Raise e, w)
  | (OutOfFuel, w) => (OutOfFuel, w)
  end.

(** A computation that never looks at the clock: from two worlds that
    differ by the clock only, it gives the same outcome and leaves two
    worlds that differ by the clock only. *)
Definition clock_blind {St A : Type} (m : M St A) : Prop :=
  forall w1 w2 : world St,
    same_but_clock w1 w2 ->
    fst (m w1) = fst (m w2) /\ same_but_clock (snd (m w1)) (snd (m w2)).

(** Membership of all, or of none, of the characters of a text in a set. *)
Fixpoint all_in (cs s : string) : bool :=
  match s with
  | EmptyString => true
  | String c t => mem c cs && all_in cs t
  end.


(** The characters a base-10 literal can be made of. *)
Definition numeric_char (c : ascii) : bool :=
  is_digit c || is_space c || mem c "_+-".

(** Characters of the marker text. *)
Definition plain (c : ascii) : bool := mem c "_more".

(** ** Servers used in the examples *)

Module Scenario.

(** JSON text is written with apostrophes and turned into the real thing
    here. *)
Fixpoint dq (s : string) : string :=
  match s with
  | EmptyString => EmptyString
  | String c t => String (if Ascii.eqb c "'" then dquote else c) (dq t)
  end.

(** A Gerrit answer: status 200 and the document behind the prefix. *)
Definition envelope (doc : string) : rest_response :=
  {| response_code := PInt 200;
     response_body := PStr (gerrit_magic_json_prefix ++ dq doc);
     response_headers := PNone |}.

(** What [rest_request] returns after a transport error. *)
Definition no_answer : rest_response :=
  {| response_code := PNone; response_body := PNone; response_headers := PNone |}.

Definition account_detail : string := "{'_account_id': 7, 'name': 'Ann'}".
Definition commit_1 : string := "{'_number': 1, 'owner': {'_account_id': 7}}".
Definition commit_2 : string := "{'_number': 2, 'owner': {'_account_id': 7}}".
Definition commit_1_more : string :=
  "{'_number': 1, 'owner': {'_account_id': 7}, '_more_changes': true}".

(** A server is described by its answers to the first page request, to
    the request at offset 500, to the later page requests and to the
    account lookups. *)
Definition route (first second later account : rest_response) (u : string)
  : rest_response :=
  if contains "/accounts/" u then account
  else if contains "&S=0" u then first
  else if contains "&S=500&n=500" u then second
  else later.

Definition stateless (f : string -> rest_response) (s : unit) (u : string)
  : rest_response * unit := (f u, s).

(** One commit, no marker; the server still has a record at offset 500. *)
Definition trailing_server :=
  stateless (route (envelope ("[" ++ commit_1 ++ "]"))
                   (envelope ("[" ++ commit_2 ++ "]"))
                   (envelope "[]") (envelope account_detail)).

(** Two pages, the first marked, then nothing. *)
Definition two_page_server :=
  stateless (route (envelope ("[" ++ commit_1_more ++ "]"))
                   (envelope ("[" ++ commit_2 ++ "]"))
                   (envelope "[]") (envelope account_detail)).

(** Every answer is a page that carries the marker. *)
Definition endless_server :=
  stateless (fun _ => envelope ("[" ++ commit_1_more ++ "]")).

(** The account lookups fail in the transport. *)
Definition lookup_down_server :=
  stateless (route (envelope ("[" ++ commit_1 ++ "]")) (envelope "[]")
                   (envelope "[]") no_answer).

(** The account detail has no name. *)
Definition nameless_server :=
  stateless (route (envelope ("[" ++ commit_1 ++ ", " ++ commit_2 ++ "]"))
                   (envelope "[]") (envelope "[]")
                   (envelope "{'_account_id': 7}")).

(** A commit whose subject happens to hold the text [_more_]. *)
Definition subject_server :=
  stateless (route (envelope "[{'_number': 1, 'subject': 'add_more_tests', 'owner': {'_account_id': 7}}]")
                   (envelope "[]") (envelope "[]") (envelope account_detail)).

Definition record_1 : value :=
  PDict [("_number", PInt 1); ("owner", PDict [("_account_id", PInt 7)])].
Definition record_2 : value :=
  PDict [("_number", PInt 2); ("owner", PDict [("_account_id", PInt 7)])].
Definition record_1_more : value :=
  PDict [("_number", PInt 1); ("owner", PDict [("_account_id", PInt 7)]);
         ("_more_changes", PBool true)].

(** The query for the commits after 2021-10-26 00:00:00, less the paging
    parameters. *)
Definition query_url : string :=
  "https://gerrit.example/changes/?q=after:" ++ chr dquote
    ++ "2021-10-26 00:00:00" ++ chr dquote.

(** Pages that the specification reads as final: the text [_more_] in a
    subject, a marker that is false, a marker on the first record only. *)
Definition subject_page : value :=
  PList [PDict [("_number", PInt 1); ("subject", PStr "add_more_tests");
                ("owner", PDict [("_account_id", PInt 7)])]].
Definition false_marker_page : value :=
  PList [PDict [("_number", PInt 1); ("_more_changes", PBool false)]].
Definition first_marked_page : value := PList [record_1_more; record_2].

Definition world0 (now : datetime) : world unit :=
  {| server := tt; clock := now; trace := [] |}.

Definition api : GerritApi := {| gerrit_url := "https://gerrit.example" |}.

(** 2021-10-27 00:00:00 *)
Definition t0 : datetime := 738089 * us_per_day.

End Scenario.

(** ** Vocabulary of the further statements *)

(** A record after the resolution of its references: the same fields in the
    same order, with the same values but for [owner] and [submitter]. *)
Definition resolved_from (c c' : value) : Prop :=
  exists kv kv',
    c = PDict kv /\ c' = PDict kv' /\ map fst kv' = map fst kv
    /\ forall k, k <> "owner" -> k <> "submitter" -> dict_get kv' k = dict_get kv k.

(** The account lookups that a record asks for: one for its owner, one more
    when it has a submitter. *)
Definition lookups (c : value) : nat :=
  match c with
  | PDict kv => if truthy (dict_get kv "submitter") then 2 else 1
  | _ => 0
  end.

(** The field [k] of an object, [None] when it has none. *)
Definition field (v : value) (k : string) : value :=
  match v with
  | PDict f => dict_get f k
  | _ => PNone
  end.

(** The three details kept of a project. *)
Definition repo_of (v : value) : repo_details :=
  {| repo_id := field v "id";
     repo_description := field v "description";
     repo_state := field v "state" |}.

Definition is_dict (v : value) : bool :=
  match v with
  | PDict _ => true
  | _ => false
  end.

(** ** Servers for the project and account queries *)

Module Catalogue.

(** Two projects, the first active and without a description, the second
    read-only. *)
Definition projects_doc : string :=
  "{'alpha': {'id': 'alpha', 'state': 'ACTIVE'}, 'beta': {'id': 'beta', 'description': 'old', 'state': 'READ_ONLY'}}".

Definition projects_server :=
  Scenario.stateless (fun _ => Scenario.envelope projects_doc).

Definition alpha : value := PDict [("id", PStr "alpha"); ("state", PStr "ACTIVE")].
Definition beta : value :=
  PDict [("id", PStr "beta"); ("description", PStr "old");
         ("state", PStr "READ_ONLY")].

(** A project whose entry is not an object. *)
Definition broken_projects_server :=
  Scenario.stateless (fun _ => Scenario.envelope "{'alpha': {'id': 'alpha'}, 'beta': null}").






End Catalogue.

(** * Properties *)

(** ** Text *)

Lemma startswith_app (p s : string) : startswith (p ++ s) p = true.
Proof.
  induction p as [|c p IH]; simpl.
  - reflexivity.
  - now rewrite Ascii.eqb_refl, IH.
Qed.

Lemma drop_app (p s : string) : drop (String.length p) (p ++ s) = s.
Proof. induction p as [|c p IH]; simpl; auto. Qed.


(** ** Running computations *)

Lemma log_to_nil {St : Type} (w : world St) : log_to w [] = w.
Proof. destruct w; unfold log_to; simpl. now rewrite app_nil_r. Qed.

Lemma log_to_log_to {St : Type} (w : world St) (e1 e2 : list event) :
  log_to (log_to w e1) e2 = log_to w (e1 ++ e2).
Proof. unfold log_to; simpl. now rewrite app_assoc. Qed.

Lemma emit_run {St : Type} (e : event) (w : world St) :
  emit e w = (Ok tt, log_to w [e]).
Proof. reflexivity. Qed.

Lemma decode_response_run {St : Type} json_loads (r : rest_response) (w : world St) :
  decode_response json_loads r w
  = (Ok (decoded json_loads r), log_to w (decode_log json_loads r)).
Proof.
  unfold decode_response, decoded, decode_log.
  destruct r as [c b h]; cbn [response_code response_body].
  destruct (String.eqb (py_str c) "200"); cbn [andb].
  - destruct b; try reflexivity.
    destruct (startswith s gerrit_magic_json_prefix).
    + destruct (json_loads _).
      * unfold ret. now rewrite log_to_nil.
      * reflexivity.
    + unfold ret. now rewrite log_to_nil.
  - destruct b; reflexivity.
Qed.

(** ** The response decoder *)

(** C3.  A response with status 200 whose body is the magic prefix followed
    by a valid JSON document decodes to the value of that document; nothing
    is logged. *)
Theorem decode_response_valid_envelope :
  forall (St : Type) (json_loads : string -> option value) (w : world St)
         (doc : string) (v headers : value),
    json_loads doc = Some v ->
    decode_response json_loads
      {| response_code := PInt 200;
         response_body := PStr (gerrit_magic_json_prefix ++ doc);
         response_headers := headers |} w
    = (Ok v, w).
Proof.
  intros St jl w doc v h Hv.
  rewrite decode_response_run.
  unfold decoded, decode_log.
  cbn [response_code response_body].
  change (String.eqb (py_str (PInt 200)) "200") with true.
  rewrite startswith_app, drop_app, Hv. cbn.
  now rewrite log_to_nil.
Qed.

Lemma decode_response_valid_envelope_witness :
  decode_response Json.loads (Scenario.envelope "[{'_number': 1}]")
    (Scenario.world0 Scenario.t0)
  = (Ok (PList [PDict [("_number", PInt 1)]]), Scenario.world0 Scenario.t0).
Proof.
  apply (decode_response_valid_envelope unit Json.loads (Scenario.world0 Scenario.t0)
           (Scenario.dq "[{'_number': 1}]")).
  vm_compute. reflexivity.
Defined.

(** C4.  A response that is not a 200 answer with a prefixed text body - the
    body is not text, or is text that does not start with the prefix, or the
    request failed - decodes to its body, unchanged. *)
Theorem decode_response_without_prefix :
  forall (St : Type) (json_loads : string -> option value) (r : rest_response)
         (w : world St),
    (py_str (response_code r) <> "200"
     \/ forall s, response_body r = PStr s ->
                  startswith s gerrit_magic_json_prefix = false) ->
    exists evs, decode_response json_loads r w
                = (Ok (response_body r), log_to w evs).
Proof.
  intros St jl r w H.
  rewrite decode_response_run. eexists. f_equal. f_equal.
  unfold decoded.
  destruct (response_body r) as [| | | s | | |] eqn:Hb; try reflexivity.
  destruct H as [H | H].
  - apply String.eqb_neq in H. now rewrite H.
  - rewrite (H s eq_refl). now rewrite andb_false_r.
Qed.

Lemma decode_response_without_prefix_witness :
  exists evs,
    decode_response Json.loads Scenario.no_answer (Scenario.world0 Scenario.t0)
    = (Ok PNone, log_to (Scenario.world0 Scenario.t0) evs).
Proof.
  apply (decode_response_without_prefix unit Json.loads Scenario.no_answer).
  right. intros s H. vm_compute in H. discriminate H.
Defined.


(** ** Text: membership, search and stripping *)

Lemma mem_app (c : ascii) (a b : string) : mem c (a ++ b) = mem c a || mem c b.
Proof.
  induction a as [|x a IH]; simpl; [reflexivity|].
  now rewrite IH, orb_assoc.
Qed.

Lemma startswith_mem (c : ascii) (s p : string) :
  startswith s p = true -> mem c p = true -> mem c s = true.
Proof.
  revert s; induction p as [|d p IH]; intros s Hs Hc; simpl in *.
  - discriminate.
  - destruct s as [|x s]; [discriminate|].
    apply andb_true_iff in Hs as [Hx Hs].
    apply Ascii.eqb_eq in Hx; subst x. simpl.
    destruct (Ascii.eqb c d); simpl in *; auto.
Qed.

Lemma contains_mem (c : ascii) (p s : string) :
  contains p s = true -> mem c p = true -> mem c s = true.
Proof.
  intros H Hc; induction s as [|x s IH]; simpl in H.
  - rewrite orb_false_r in H. eapply startswith_mem; eauto.
  - apply orb_true_iff in H as [H | H].
    + eapply startswith_mem; eauto.
    + simpl. rewrite (IH H). apply orb_true_r.
Qed.

Lemma lstrip_mem (c : ascii) (cs s : string) :
  mem c cs = false -> mem c s = true -> mem c (lstrip cs s) = true.
Proof.
  intros Hcs; induction s as [|x s IH]; simpl; intros H; [discriminate|].
  destruct (mem x cs) eqn:Hx.
  - apply IH. destruct (Ascii.eqb_spec c x); [congruence | exact H].
  - exact H.
Qed.

Lemma rstrip_mem (c : ascii) (cs s : string) :
  mem c cs = false -> mem c s = true -> mem c (rstrip cs s) = true.
Proof.
  intros Hcs; induction s as [|x s IH]; simpl; intros H; [discriminate|].
  destruct (Ascii.eqb_spec c x) as [-> | Hne]; simpl in H.
  - destruct (rstrip cs s); simpl.
    + rewrite Hcs. simpl. now rewrite Ascii.eqb_refl.
    + now rewrite Ascii.eqb_refl.
  - specialize (IH H).
    destruct (rstrip cs s) eqn:Hr; [discriminate|].
    change (mem c (String x (String a s0)) = true).
    simpl in *. rewrite IH. apply orb_true_r.
Qed.

Lemma strip_mem (c : ascii) (cs s : string) :
  mem c cs = false -> mem c s = true -> mem c (strip cs s) = true.
Proof. intros; unfold strip; auto using lstrip_mem, rstrip_mem. Qed.

(** A match cannot begin inside a run of characters that differ from the
    first character of the text looked for. *)
Lemma contains_skip (k : ascii) (sub pre rest : string) :
  mem k pre = false ->
  contains (String k sub) (pre ++ rest) = contains (String k sub) rest.
Proof.
  induction pre as [|x pre IH]; simpl; intros H; [reflexivity|].
  apply orb_false_iff in H as [Hx Hp].
  rewrite Ascii.eqb_sym in Hx. rewrite Hx. simpl. auto.
Qed.





(** ** Text: [int] *)

Lemma py_int_cases (s : string) :
  py_int s =
  let t := skip_space s in
  if startswith t "-" then option_map Z.opp (unsigned (drop 1 t))
  else if startswith t "+" then unsigned (drop 1 t)
  else unsigned t.
Proof.
  unfold py_int. cbv zeta.
  destruct (skip_space s) as [|a t]; [reflexivity|].
  destruct a as [[] [] [] [] [] [] [] []]; reflexivity.
Qed.

Lemma all_space_mem (c : ascii) (s : string) :
  mem c s = true -> is_space c = false -> all_space s = false.
Proof.
  intros H Hc; induction s as [|x s IH]; simpl in *; [discriminate|].
  destruct (Ascii.eqb_spec c x) as [-> | Hne]; simpl in H.
  - now rewrite Hc.
  - rewrite (IH H). apply andb_false_r.
Qed.

Lemma digits_bad (c : ascii) :
  numeric_char c = false ->
  forall (n : nat) (s : string) (acc : Z),
    (String.length s <= n)%nat -> mem c s = true -> digits acc s = None.
Proof.
  intros Hc. unfold numeric_char in Hc.
  apply orb_false_iff in Hc as [Hc Hu].
  apply orb_false_iff in Hc as [Hd Hsp].
  induction n as [|n IH]; intros s acc Hlen Hm.
  - destruct s; [discriminate | simpl in Hlen; lia].
  - destruct s as [|x s]; [discriminate|].
    simpl in Hlen. cbn [digits].
    destruct (is_digit x) eqn:Hx.
    + apply IH; [lia|]. simpl in Hm.
      destruct (Ascii.eqb_spec c x); [congruence | exact Hm].
    + destruct (Ascii.eqb_spec x "_") as [-> | Hne].
      * simpl in Hm, Hu.
        destruct (Ascii.eqb c "_") eqn:E; [simpl in Hu; discriminate|].
        simpl in Hm.
        destruct s as [|d s]; [reflexivity|].
        destruct (is_digit d) eqn:Hdd; [|reflexivity].
        apply IH; [simpl in Hlen; lia|]. simpl in Hm.
        destruct (Ascii.eqb_spec c d); [congruence | exact Hm].
      * now rewrite (all_space_mem c (String x s) Hm Hsp).
Qed.

Lemma unsigned_bad (c : ascii) (s : string) :
  numeric_char c = false -> mem c s = true -> unsigned s = None.
Proof.
  intros Hc Hm. destruct s as [|x s]; [discriminate|]. simpl.
  destruct (is_digit x) eqn:Hx; [|reflexivity].
  apply (digits_bad c Hc (String.length s)); [lia|].
  simpl in Hm. destruct (Ascii.eqb_spec c x) as [-> | Hne]; [|exact Hm].
  unfold numeric_char in Hc. now rewrite Hx in Hc.
Qed.

Lemma skip_space_mem (c : ascii) (s : string) :
  is_space c = false -> mem c s = true -> mem c (skip_space s) = true.
Proof.
  intros Hc; induction s as [|x s IH]; simpl; intros H; [discriminate|].
  destruct (is_space x) eqn:Hx; [|exact H].
  apply IH. destruct (Ascii.eqb_spec c x); [congruence | exact H].
Qed.

Lemma drop_sign_mem (c d : ascii) (t : string) :
  Ascii.eqb c d = false -> startswith t (chr d) = true -> mem c t = true ->
  mem c (drop 1 t) = true.
Proof.
  intros Hcd Hs Hm. destruct t as [|x t]; [discriminate|].
  simpl in Hs. rewrite andb_true_r in Hs. apply Ascii.eqb_eq in Hs; subst x.
  simpl in *. now rewrite Hcd in Hm.
Qed.

(** Text that holds a character no literal can hold is not a number. *)
Lemma py_int_bad (c : ascii) (s : string) :
  numeric_char c = false -> mem c s = true -> py_int s = None.
Proof.
  intros Hc Hm. rewrite py_int_cases. cbv zeta.
  assert (Hsp : is_space c = false).
  { unfold numeric_char in Hc. apply orb_false_iff in Hc as [Hc _].
    now apply orb_false_iff in Hc as [_ Hc]. }
  assert (Hsign : Ascii.eqb c "+" = false /\ Ascii.eqb c "-" = false).
  { unfold numeric_char in Hc. apply orb_false_iff in Hc as [_ Hc].
    simpl in Hc.
    destruct (Ascii.eqb c "_"), (Ascii.eqb c "+"), (Ascii.eqb c "-");
      simpl in Hc; try discriminate; auto. }
  destruct Hsign as [Hplus Hminus].
  pose proof (skip_space_mem c s Hsp Hm) as Ht.
  destruct (startswith (skip_space s) "-") eqn:E1.
  - rewrite (unsigned_bad c _ Hc (drop_sign_mem c "-" _ Hminus E1 Ht)).
    reflexivity.
  - destruct (startswith (skip_space s) "+") eqn:E2.
    + exact (unsigned_bad c _ Hc (drop_sign_mem c "+" _ Hplus E2 Ht)).
    + exact (unsigned_bad c _ Hc Ht).
Qed.

Lemma int_strip_fails (kw cs d : string) (c : ascii) :
  contains kw d = true -> mem c kw = true -> mem c cs = false ->
  numeric_char c = false ->
  int (strip cs d) = Raise ValueError.
Proof.
  intros Hk Hc Hcs Hn. unfold int.
  rewrite (py_int_bad c); auto.
  apply strip_mem; auto. eapply contains_mem; eauto.
Qed.

(** ** The duration parser *)

(** C7, as the code has it.  The keywords are looked for in the lowercased
    text, minutes first; whenever two or more of them occur, the integer
    conversion of the first branch taken fails, and [get_start_time] raises
    [ValueError]: no delta is computed, whatever the order of the tests. *)
Theorem get_start_time_two_units :
  forall (duration : value) (stop : datetime),
    (2 <= units_found (lower (py_str duration)))%nat ->
    get_start_time duration stop = Raise ValueError.
Proof.
  intros duration stop H.
  unfold get_start_time, units_found in *. cbv zeta.
  set (d := lower (py_str duration)) in *.
  cbn [filter] in H.
  destruct (contains "minutes" d) eqn:Hmin.
  - (* the branch of minutes runs first and fails on a letter of the other unit *)
    assert (Hint : int (strip "minutes" d) = Raise ValueError).
    { destruct (contains "hours" d) eqn:Hh;
        [apply (int_strip_fails "hours" "minutes" d "h"); auto|].
      destruct (contains "days" d) eqn:Hd;
        [apply (int_strip_fails "days" "minutes" d "d"); auto|].
      destruct (contains "months" d) eqn:Hm;
        [apply (int_strip_fails "months" "minutes" d "o"); auto|].
      simpl in H; lia. }
    now rewrite Hint.
  - cbn [obind].
    destruct (contains "hours" d) eqn:Hh.
    + assert (Hint : int (strip "hours" d) = Raise ValueError).
      { destruct (contains "days" d) eqn:Hd;
          [apply (int_strip_fails "days" "hours" d "d"); auto|].
        destruct (contains "months" d) eqn:Hm;
          [apply (int_strip_fails "months" "hours" d "m"); auto|].
        simpl in H; lia. }
      now rewrite Hint.
    + destruct (contains "days" d) eqn:Hd.
      * assert (Hint : int (strip "days" d) = Raise ValueError).
        { destruct (contains "months" d) eqn:Hm;
            [apply (int_strip_fails "months" "days" d "m"); auto|].
          simpl in H; lia. }
        now rewrite Hint.
      * destruct (contains "months" d); simpl in H; lia.
Qed.

Lemma get_start_time_two_units_witness :
  get_start_time (PStr "5MinutesHours") Scenario.t0 = Raise ValueError.
Proof.
  apply (get_start_time_two_units (PStr "5MinutesHours") Scenario.t0).
  vm_compute. apply le_n.
Defined.

(** C7, as stated, fails: with minutes and hours both in the text, the first
    unit of the order does not give the delta; nothing is returned. *)
Lemma unit_precedence_counterexample :
  units_found (lower "5MinutesHours") = 2%nat
  /\ get_start_time (PStr "5MinutesHours") Scenario.t0
     <> Ok (Scenario.t0 - 5 * us_per_minute)
  /\ ~ (exists start, get_start_time (PStr "5MinutesHours") Scenario.t0 = Ok start).
Proof.
  split; [reflexivity|]. split.
  - vm_compute. discriminate.
  - intros [start H]. vm_compute in H. discriminate H.
Qed.

(** *** Digits *)










(** *** Arithmetic on instants *)






(** The examples of the specification, from 2021-10-27 00:00:00. *)
Example two_days_before :
  get_start_time (PStr "2Days") Scenario.t0 = Ok (Scenario.t0 - 48 * us_per_hour).
Proof. reflexivity. Qed.

Example two_hours_before :
  get_start_time (PStr "120Minutes") Scenario.t0 = Ok (Scenario.t0 - 2 * us_per_hour).
Proof. reflexivity. Qed.



(** ** The pagination helper *)

Lemma requests_app (a b : list event) :
  requests (a ++ b) = (requests a ++ requests b)%list.
Proof.
  induction a as [|e a IH]; simpl; [reflexivity|].
  destruct e; simpl; now rewrite IH.
Qed.

Lemma requests_decode_log (json_loads : string -> option value) (r : rest_response) :
  requests (decode_log json_loads r) = [].
Proof.
  unfold decode_log.
  destruct (String.eqb _ _); [|reflexivity].
  destruct (response_body r); try reflexivity.
  destruct (startswith _ _); [|reflexivity].
  destruct (json_loads _); reflexivity.
Qed.

Section Pagination.

Variable St : Type.
Variable serve : St -> string -> rest_response * St.
Variable json_loads : string -> option value.

Lemma fetch_run {A : Type} (u : string) (k : value -> M St A) (w : world St) :
  bind (rest_request St serve u) (fun r => bind (decode_response json_loads r) k) w
  = k (decoded json_loads (fst (serve (server w) u))) (fetched St serve json_loads u w).
Proof.
  unfold bind at 1, rest_request.
  destruct (serve (server w) u) as [r s] eqn:E.
  unfold bind at 1. rewrite decode_response_run.
  unfold fetched, log_to. rewrite E. cbn [fst snd server clock trace].
  now rewrite <- app_assoc.
Qed.

Lemma requests_fetched (u : string) (w : world St) :
  requests (trace (fetched St serve json_loads u w)) = (requests (trace w) ++ [u])%list.
Proof.
  unfold fetched. cbn [trace]. rewrite requests_app. cbn [requests].
  now rewrite requests_decode_log.
Qed.

Lemma mocker_unfold (fuel : nat) (p : value) (acc : list value) (url : string)
      (lim : Z) :
  no_limit_mocker St serve json_loads fuel p acc url lim =
  if has_more p then
    bind (emit (Log INFO ("Fetching " ++ str_of_Z (lim + 500 - 500 + 1) ++ " - "
                            ++ str_of_Z (lim + 500) ++ " Records. Please Wait...")))
      (fun _ =>
         bind (rest_request St serve (page_url url (lim + 500)))
           (fun r =>
              bind (decode_response json_loads r)
                (fun int_response =>
                   bind (lift (extend acc int_response))
                     (fun acc' =>
                        match fuel with
                        | O => lift OutOfFuel
                        | S fuel' =>
                            no_limit_mocker St serve json_loads fuel' int_response
                              acc' url (lim + 500)
                        end))))
  else
    bind (rest_request St serve (page_url url (lim + 500)))
      (fun r =>
         bind (decode_response json_loads r)
           (fun int_response =>
              bind (lift (extend acc int_response)) (fun acc' => ret acc'))).
Proof. destruct fuel; reflexivity. Qed.

(** The pages after a last unmarked one: [follow] are the pages that the
    marked pages announce, [extra] is the answer to the request made after
    the unmarked page. *)
Lemma mocker_pages (url : string) :
  forall (follow : list (list value)) (extra : list value) (fuel : nat)
         (p : value) (acc : list value) (lim : Z) (w : world St),
    pages St serve json_loads (S (List.length follow)) url lim (server w)
    = (map PList follow ++ [PList extra])%list ->
    last_only_unmarked p (map PList follow) = true ->
    (List.length follow <= fuel)%nat ->
    exists w',
      no_limit_mocker St serve json_loads fuel p acc url lim w
      = (Ok (acc ++ List.concat follow ++ extra)%list, w')
      /\ server w' = after_pages St serve (S (List.length follow)) url lim (server w)
      /\ clock w' = clock w
      /\ requests (trace w')
         = (requests (trace w) ++ page_urls (S (List.length follow)) url lim)%list.
Proof.
  induction follow as [|f fs IH]; intros extra fuel p acc lim w Hp Hm Hfuel.
  - cbn [List.length pages map app] in Hp.
    destruct (serve (server w) (page_url url (lim + 500))) as [r s] eqn:E.
    injection Hp as Hp.
    cbn [last_only_unmarked map] in Hm. apply negb_true_iff in Hm.
    rewrite mocker_unfold, Hm, fetch_run, E. cbn [fst]. rewrite Hp.
    eexists; split; [reflexivity|].
    rewrite requests_fetched.
    cbn [fetched server clock trace after_pages page_urls List.length].
    repeat split.
  - cbn [List.length map app] in Hp. cbn [pages] in Hp.
    destruct (serve (server w) (page_url url (lim + 500))) as [r s] eqn:E.
    injection Hp as Hr Hp.
    cbn [last_only_unmarked map] in Hm. apply andb_true_iff in Hm as [Hm Hrest].
    destruct fuel as [|fuel]; [cbn [List.length] in Hfuel; lia|].
    rewrite mocker_unfold, Hm. unfold bind at 1. rewrite emit_run.
    set (w0 := log_to w _).
    assert (E0 : serve (server w0) (page_url url (lim + 500)) = (r, s)) by exact E.
    rewrite fetch_run, E0. cbn [fst]. rewrite Hr.
    unfold bind at 1, lift, extend. cbn [py_iter obind].
    set (w1 := fetched _ _ _ _ _).
    assert (Hs1 : server w1 = s) by (subst w1; cbn [fetched server]; now rewrite E0).
    destruct (IH extra fuel (PList f) (acc ++ f)%list (lim + 500) w1)
      as (w' & Hrun & Hsrv & Hclk & Hreq).
    + rewrite Hs1. exact Hp.
    + exact Hrest.
    + cbn [List.length] in Hfuel. lia.
    + exists w'. split; [|split; [|split]].
      * rewrite Hrun. cbn [List.concat]. now rewrite !app_assoc.
      * rewrite Hsrv, Hs1. cbn [after_pages List.length]. now rewrite E.
      * rewrite Hclk. reflexivity.
      * rewrite Hreq. subst w1. rewrite requests_fetched.
        subst w0. cbn [log_to trace]. rewrite requests_app.
        cbn [requests page_urls List.length].
        rewrite app_nil_r. now rewrite <- app_assoc.
Qed.

End Pagination.

Lemma string_app_assoc (a b c : string) : (a ++ b) ++ c = a ++ b ++ c.
Proof. induction a as [|x a IH]; simpl; [reflexivity | now rewrite IH]. Qed.

Lemma length_concat (l : list (list value)) :
  List.length (List.concat l) = list_sum (map (@List.length value) l).
Proof.
  induction l as [|x l IH]; simpl; [reflexivity|].
  now rewrite length_app, IH.
Qed.

(** C1, as the code has it.  Let the first page and the pages [follow] be
    the N pages of the claim: all carry the text [_more_] but the last.  The
    helper asks for one page more after the last of them, the page [extra].
    The merged list is the N pages in order, followed by [extra]; one
    request was sent for the first page and N for the others, in the order
    of the offsets 500, 1000, ..., 500 N. *)
Theorem pagination_merges_pages_and_one_more :
  forall (St : Type) (serve : St -> string -> rest_response * St)
         (json_loads : string -> option value)
         (fuel : nat) (cls : GerritApi_class) (self : GerritApi)
         (start duration : option value) (stop : option datetime)
         (w : world St) (text : string)
         (first : list value) (follow : list (list value)) (extra : list value),
    start_text (arg PNone start) (arg (PStr "24Hours") duration)
               (arg (stop_default cls) stop) = Ok text ->
    forall url : string,
      url = gerrit_url self ++ GET_COMMITS_USING_AFTER
              ++ chr dquote ++ text ++ chr dquote ->
      decoded json_loads (fst (serve (server w) (url ++ "&S=0"))) = PList first ->
      pages St serve json_loads (S (List.length follow)) url 0
            (snd (serve (server w) (url ++ "&S=0")))
      = (map PList follow ++ [PList extra])%list ->
      last_only_unmarked (PList first) (map PList follow) = true ->
      (List.length follow <= fuel)%nat ->
      exists w',
        fetch_commits St serve json_loads fuel cls self start duration stop w
        = (Ok ((first ++ List.concat follow ++ extra)%list, text), w')
        /\ requests (trace w')
           = (requests (trace w)
                ++ (url ++ "&S=0")%string :: page_urls (S (List.length follow)) url 0)%list
        /\ List.length (first ++ List.concat follow ++ extra)%list
           = (list_sum (map (@List.length value) (first :: follow))
              + List.length extra)%nat.
Proof.
  intros St serve jl fuel cls self start duration stop w text first follow extra
         Hstart url Hurl Hfirst Hpages Hmarks Hfuel.
  unfold fetch_commits. cbv zeta. rewrite Hstart.
  unfold bind at 1, lift. unfold bind at 1. rewrite emit_run.
  assert (Hu : gerrit_url self ++ GET_COMMITS_USING_AFTER ++ chr dquote ++ text
                 ++ chr dquote ++ "&S=0" = url ++ "&S=0").
  { rewrite Hurl. now rewrite !string_app_assoc. }
  rewrite Hu, <- Hurl. clear Hu.
  set (w0 := log_to w _).
  assert (E0 : serve (server w0) (url ++ "&S=0") = serve (server w) (url ++ "&S=0"))
    by reflexivity.
  rewrite fetch_run, E0, Hfirst.
  unfold bind at 1, lift, extend. cbn [py_iter obind app].
  set (w1 := fetched _ _ _ _ _).
  destruct (mocker_pages St serve jl url follow extra fuel (PList first) [] 0 w1)
    as (w' & Hrun & _ & _ & Hreq); auto.
  unfold bind at 1. rewrite Hrun. cbn [app].
  exists w'. split; [|split].
  - unfold ret. f_equal. f_equal.
    destruct (List.concat follow ++ extra)%list; cbn [truthy];
      [now rewrite app_nil_r | reflexivity].
  - rewrite Hreq. subst w1. rewrite requests_fetched. subst w0.
    cbn [log_to trace]. rewrite requests_app. cbn [requests].
    rewrite app_nil_r. now rewrite <- app_assoc.
  - rewrite !length_app, length_concat. unfold list_sum.
    cbn [map fold_right]. lia.
Qed.

Lemma pagination_merges_pages_and_one_more_witness :
  exists w',
    fetch_commits unit Scenario.two_page_server Json.loads 1
      {| stop_default := Scenario.t0 |} Scenario.api None None None
      (Scenario.world0 Scenario.t0)
    = (Ok (([Scenario.record_1_more] ++ List.concat [[Scenario.record_2]] ++ [])%list,
           "2021-10-26 00:00:00"), w')
    /\ requests (trace w')
       = (requests (trace (Scenario.world0 Scenario.t0))
            ++ (Scenario.query_url ++ "&S=0")%string
            :: page_urls 2 Scenario.query_url 0)%list
    /\ List.length ([Scenario.record_1_more] ++ List.concat [[Scenario.record_2]] ++ [])%list
       = (list_sum (map (@List.length value) [[Scenario.record_1_more]; [Scenario.record_2]])
          + List.length (@nil value))%nat.
Proof.
  apply (pagination_merges_pages_and_one_more unit Scenario.two_page_server
           Json.loads 1 {| stop_default := Scenario.t0 |} Scenario.api
           None None None (Scenario.world0 Scenario.t0) "2021-10-26 00:00:00"
           [Scenario.record_1_more] [[Scenario.record_2]] []).
  - vm_compute. reflexivity.
  - vm_compute. reflexivity.
  - vm_compute. reflexivity.
  - vm_compute. reflexivity.
  - vm_compute. reflexivity.
  - simpl. lia.
Defined.

(** C1, as stated, fails.  The first page has one record and no marker, so
    it is the last page of the claim; a request for offset 500 is sent all
    the same, and the record it brings is appended. *)
Lemma pagination_stops_counterexample :
  decoded Json.loads (fst (Scenario.trailing_server tt (Scenario.query_url ++ "&S=0")))
  = PList [Scenario.record_1]
  /\ has_more (PList [Scenario.record_1]) = false
  /\ exists w',
       fetch_commits unit Scenario.trailing_server Json.loads 0
         {| stop_default := Scenario.t0 |} Scenario.api None None None
         (Scenario.world0 Scenario.t0)
       = (Ok ([Scenario.record_1; Scenario.record_2], "2021-10-26 00:00:00"), w')
       /\ requests (trace w')
          = [Scenario.query_url ++ "&S=0"; Scenario.query_url ++ "&S=500&n=500"].
Proof.
  split; [vm_compute; reflexivity|].
  split; [vm_compute; reflexivity|].
  eexists. split; vm_compute; reflexivity.
Qed.

(** A server whose pages all carry the text [_more_] (and can be iterated)
    keeps the helper going: whatever depth is granted, every level sends its
    request and asks for one level more. *)
Lemma mocker_keeps_going
      (St : Type) (serve : St -> string -> rest_response * St)
      (json_loads : string -> option value) (url : string) :
  (forall (s : St) (offset : Z),
      let page := decoded json_loads (fst (serve s (page_url url offset))) in
      has_more page = true /\ exists items, py_iter page = Ok items) ->
  forall (fuel : nat) (p : value) (acc : list value) (lim : Z) (w : world St),
    has_more p = true ->
    exists w',
      no_limit_mocker St serve json_loads fuel p acc url lim w = (OutOfFuel, w')
      /\ requests (trace w')
         = (requests (trace w) ++ page_urls (S fuel) url lim)%list.
Proof.
  intros Hsrv.
  induction fuel as [|fuel IH]; intros p acc lim w Hp;
    rewrite mocker_unfold, Hp; unfold bind at 1; rewrite emit_run;
    set (w0 := log_to w _); rewrite fetch_run;
    destruct (Hsrv (server w0) (lim + 500)) as [Hmore [items Hit]];
    cbv zeta in Hmore, Hit;
    unfold bind at 1, lift, extend; rewrite Hit; cbn [obind];
    set (w1 := fetched _ _ _ _ _);
    assert (Hreq1 : requests (trace w1)
                    = (requests (trace w) ++ [page_url url (lim + 500)])%list)
      by (subst w1 w0; rewrite requests_fetched; cbn [log_to trace];
          rewrite requests_app; cbn [requests]; now rewrite app_nil_r).
  - exists w1. split; [reflexivity | exact Hreq1].
  - destruct (IH _ (acc ++ items)%list (lim + 500) w1 Hmore) as (w' & Hrun & Hreq).
    exists w'. split; [exact Hrun|].
    rewrite Hreq, Hreq1. cbn [page_urls]. now rewrite <- app_assoc.
Qed.

(** C2, as the code has it.  [no_limit_mocker] has no bound of its own: the
    depth of its recursion is decided by the answers of the server.  When
    every page carries the text [_more_], then for every depth [fuel] the
    helper has sent [fuel + 1] requests, for the offsets 500, 1000, ..., and
    has not returned. *)
Theorem no_limit_mocker_unbounded :
  forall (St : Type) (serve : St -> string -> rest_response * St)
         (json_loads : string -> option value) (url : string),
    (forall (s : St) (offset : Z),
        let page := decoded json_loads (fst (serve s (page_url url offset))) in
        has_more page = true /\ exists items, py_iter page = Ok items) ->
    forall (fuel : nat) (p : value) (acc : list value) (lim : Z) (w : world St),
      has_more p = true ->
      exists w',
        no_limit_mocker St serve json_loads fuel p acc url lim w = (OutOfFuel, w')
        /\ requests (trace w')
           = (requests (trace w) ++ page_urls (S fuel) url lim)%list
        /\ List.length (page_urls (S fuel) url lim) = S fuel.
Proof.
  intros St serve jl url Hsrv fuel p acc lim w Hp.
  destruct (mocker_keeps_going St serve jl url Hsrv fuel p acc lim w Hp)
    as (w' & Hrun & Hreq).
  exists w'. split; [exact Hrun|]. split; [exact Hreq|].
  clear. generalize lim. induction (S fuel) as [|n IH]; intros l; simpl; auto.
Qed.

Lemma endless_server_pages (s : unit) (offset : Z) :
  let page := decoded Json.loads
                (fst (Scenario.endless_server s (page_url Scenario.query_url offset))) in
  has_more page = true /\ exists items, py_iter page = Ok items.
Proof.
  cbv zeta. unfold Scenario.endless_server, Scenario.stateless. cbn [fst].
  split; [vm_compute; reflexivity|].
  eexists. vm_compute. reflexivity.
Qed.

Lemma no_limit_mocker_unbounded_witness :
  exists w',
    no_limit_mocker unit Scenario.endless_server Json.loads 3
      (PList [Scenario.record_1_more]) [] Scenario.query_url 0
      (Scenario.world0 Scenario.t0)
    = (OutOfFuel, w')
    /\ requests (trace w')
       = (requests (trace (Scenario.world0 Scenario.t0))
            ++ page_urls 4 Scenario.query_url 0)%list
    /\ List.length (page_urls 4 Scenario.query_url 0) = 4%nat.
Proof.
  apply (no_limit_mocker_unbounded unit Scenario.endless_server Json.loads
           Scenario.query_url endless_server_pages 3
           (PList [Scenario.record_1_more]) [] 0 (Scenario.world0 Scenario.t0)).
  vm_compute. reflexivity.
Defined.

(** C2, as stated, fails: against the server whose pages all carry the
    marker, no depth is enough for the helper to return. *)
Lemma safety_bound_counterexample :
  ~ (exists (fuel : nat) (result : list value) (w' : world unit),
        no_limit_mocker unit Scenario.endless_server Json.loads fuel
          (PList [Scenario.record_1_more]) [] Scenario.query_url 0
          (Scenario.world0 Scenario.t0)
        = (Ok result, w')).
Proof.
  intros (fuel & result & w' & H).
  destruct (mocker_keeps_going unit Scenario.endless_server Json.loads
              Scenario.query_url endless_server_pages fuel
              (PList [Scenario.record_1_more]) [] 0 (Scenario.world0 Scenario.t0))
    as (w'' & Hrun & _); [vm_compute; reflexivity|].
  rewrite Hrun in H. discriminate H.
Qed.

(** ** Where the text [_more_] can occur in [str(page)] *)

(** A character that is not in the text looked for cuts any match. *)
Lemma startswith_sep (sub a b : string) (c : ascii) :
  mem c sub = false -> startswith (a ++ String c b) sub = startswith a sub.
Proof.
  revert a; induction sub as [|d sub IH]; intros a H; [reflexivity|].
  cbn [mem] in H. apply orb_false_iff in H as [Hd Hs].
  destruct a as [|x a]; cbn [append startswith].
  - now rewrite Hd.
  - now rewrite (IH a Hs).
Qed.

Lemma contains_cons (sub : string) (c : ascii) (t : string) :
  contains sub (String c t) = startswith (String c t) sub || contains sub t.
Proof. reflexivity. Qed.

Lemma contains_sep (d : ascii) (sub a b : string) (c : ascii) :
  mem c (String d sub) = false ->
  contains (String d sub) (a ++ String c b)
  = contains (String d sub) a || contains (String d sub) b.
Proof.
  intros H. induction a as [|x a IH].
  - cbn [append]. rewrite contains_cons.
    cbn [mem] in H. apply orb_false_iff in H as [Hd _].
    cbn [startswith]. rewrite Hd. reflexivity.
  - change (String x a ++ String c b) with (String x (a ++ String c b)).
    rewrite !contains_cons, IH.
    change (String x (a ++ String c b)) with (String x a ++ String c b).
    rewrite (startswith_sep _ _ _ _ H). now rewrite orb_assoc.
Qed.

Lemma contains_empty (d : ascii) (sub : string) :
  contains (String d sub) EmptyString = false.
Proof. reflexivity. Qed.

Lemma escape_char_plain (q : ascii) (b : bool) (c : ascii) :
  q = "'"%char \/ q = dquote -> plain c = true -> escape_char q b c = chr c.
Proof.
  intros Hq.
  destruct c as [[] [] [] [] [] [] [] []]; intros H; try discriminate H;
    destruct Hq as [-> | ->]; destruct b; reflexivity.
Qed.

Lemma escape_char_other (q : ascii) (b : bool) (c : ascii) :
  q = "'"%char \/ q = dquote -> plain c = false ->
  exists x w, escape_char q b c = String x w /\ plain x = false /\ mem "_" w = false.
Proof.
  intros Hq.
  destruct c as [[] [] [] [] [] [] [] []]; intros H; try discriminate H;
    destruct Hq as [-> | ->]; destruct b;
    eexists; eexists; (split; [vm_compute; reflexivity | split; reflexivity]).
Qed.

Lemma plain_neq (x d : ascii) : plain x = false -> plain d = true -> Ascii.eqb x d = false.
Proof.
  intros Hx Hd. destruct (Ascii.eqb_spec x d) as [-> |]; congruence.
Qed.

Lemma startswith_escape (q : ascii) (b : bool) :
  q = "'"%char \/ q = dquote ->
  forall (p : string), all_in "_more" p = true ->
  forall (t : string), startswith (escape q b t) p = startswith t p.
Proof.
  intros Hq. induction p as [|d p IH]; intros Hp t; [reflexivity|].
  cbn [all_in] in Hp. apply andb_true_iff in Hp as [Hd Hp].
  destruct t as [|c t]; [reflexivity|].
  cbn [escape]. destruct (plain c) eqn:Hc.
  - rewrite (escape_char_plain q b c Hq Hc). cbn [chr append startswith].
    now rewrite (IH Hp t).
  - destruct (escape_char_other q b c Hq Hc) as (x & w & -> & Hx & _).
    cbn [append startswith].
    now rewrite (plain_neq x d Hx Hd), (plain_neq c d Hc Hd).
Qed.

(** Escaping neither makes nor breaks an occurrence of [_more_]. *)
Lemma contains_escape (q : ascii) (b : bool) (s : string) :
  q = "'"%char \/ q = dquote ->
  contains "_more_" (escape q b s) = contains "_more_" s.
Proof.
  intros Hq. induction s as [|c s IH]; [reflexivity|].
  rewrite (contains_cons _ c s), <- IH.
  rewrite <- (startswith_escape q b Hq "_more_" eq_refl (String c s)).
  cbn [escape]. destruct (plain c) eqn:Hc.
  - rewrite (escape_char_plain q b c Hq Hc). reflexivity.
  - destruct (escape_char_other q b c Hq Hc) as (x & w & -> & Hx & Hw).
    change (String x w ++ escape q b s) with (String x (w ++ escape q b s)).
    rewrite contains_cons.
    now rewrite (contains_skip "_" "more_" w (escape q b s) Hw).
Qed.

Lemma quote_for_cases (s : string) : quote_for s = "'"%char \/ quote_for s = dquote.
Proof. unfold quote_for. destruct (_ && _); auto. Qed.

Lemma contains_repr_str (s : string) :
  contains "_more_" (repr_str s) = contains "_more_" s.
Proof.
  unfold repr_str. cbv zeta.
  pose proof (quote_for_cases s) as Hq.
  set (q := quote_for s) in *.
  assert (Hm : mem q "_more_" = false) by (destruct Hq as [-> | ->]; reflexivity).
  change (chr q ++ escape q false s ++ chr q)
    with (EmptyString ++ String q (escape q false s ++ String q EmptyString)).
  rewrite (contains_sep "_" "more_" _ _ q Hm).
  rewrite (contains_sep "_" "more_" _ _ q Hm).
  rewrite !contains_empty, orb_false_r. cbn [orb].
  now apply contains_escape.
Qed.

Lemma contains_repr_bytes (s : string) :
  contains "_more_" (repr_bytes s) = contains "_more_" s.
Proof.
  unfold repr_bytes. cbv zeta.
  pose proof (quote_for_cases s) as Hq.
  set (q := quote_for s) in *.
  assert (Hm : mem q "_more_" = false) by (destruct Hq as [-> | ->]; reflexivity).
  change ("b" ++ chr q ++ escape q true s ++ chr q)
    with ("b" ++ String q (escape q true s ++ String q EmptyString)).
  rewrite (contains_sep "_" "more_" _ _ q Hm).
  rewrite (contains_sep "_" "more_" _ _ q Hm).
  rewrite !contains_empty, orb_false_r.
  change (contains "_more_" "b") with false. cbn [orb].
  now apply contains_escape.
Qed.

Lemma contains_join (l : list string) :
  contains "_more_" (join ", " l) = existsb (contains "_more_") l.
Proof.
  induction l as [|x l IH]; [reflexivity|].
  cbn [existsb]. rewrite <- IH. cbn [join].
  destruct l as [|y l]; [cbn [join]; now rewrite orb_false_r|].
  set (J := join ", " (y :: l)).
  change (x ++ ", " ++ J) with (x ++ String "," (String " " J)).
  rewrite (contains_sep "_" "more_" x _ "," eq_refl).
  now rewrite contains_cons.
Qed.

Lemma uint_no_underscore (d : Decimal.uint) :
  mem "_" (NilEmpty.string_of_uint d) = false.
Proof. induction d; simpl; auto. Qed.

Lemma str_of_Z_no_underscore (z : Z) : mem "_" (str_of_Z z) = false.
Proof.
  unfold str_of_Z, NilZero.string_of_int, NilZero.string_of_uint.
  destruct (Z.to_int z) as [d | d]; destruct d; cbn [mem];
    try reflexivity;
    try (change (String ?c (NilEmpty.string_of_uint ?d)) with
          (NilEmpty.string_of_uint d));
    cbn [NilEmpty.string_of_uint mem]; rewrite ?uint_no_underscore; reflexivity.
Qed.

Lemma contains_no_underscore (s : string) :
  mem "_" s = false -> contains "_more_" s = false.
Proof.
  intros H. destruct (contains "_more_" s) eqn:E; [|reflexivity].
  rewrite (contains_mem "_" "_more_" s E eq_refl) in H. discriminate H.
Qed.

(** Induction on values, through lists and dictionaries. *)
Lemma value_induction (P : value -> Prop) :
  P PNone -> (forall b, P (PBool b)) -> (forall z, P (PInt z)) ->
  (forall s, P (PStr s)) -> (forall s, P (PBytes s)) ->
  (forall l, Forall P l -> P (PList l)) ->
  (forall kv, Forall (fun p => P (snd p)) kv -> P (PDict kv)) ->
  forall v, P v.
Proof.
  intros HN HB HI HS HY HL HD.
  fix IH 1. intros [| b | z | s | s | l | kv].
  - exact HN.
  - apply HB.
  - apply HI.
  - apply HS.
  - apply HY.
  - apply HL. induction l as [|x l IHl]; constructor; [apply IH | exact IHl].
  - apply HD. induction kv as [|[k x] kv IHkv]; constructor;
      [apply IH | exact IHkv].
Qed.

(** The text [_more_] occurs in [repr(v)] exactly when it occurs in a text
    inside [v]. *)
Lemma contains_py_repr (v : value) :
  contains "_more_" (py_repr v) = mentions_more v.
Proof.
  induction v as [| b | z | s | s | l IHl | kv IHkv] using value_induction.
  - reflexivity.
  - destruct b; reflexivity.
  - apply contains_no_underscore, str_of_Z_no_underscore.
  - apply contains_repr_str.
  - apply contains_repr_bytes.
  - cbn [py_repr mentions_more].
    set (J := join ", " (map py_repr l)).
    change ("[" ++ J ++ "]") with (EmptyString ++ String "[" (J ++ String "]" EmptyString)).
    rewrite (contains_sep "_" "more_" _ _ "[" eq_refl).
    rewrite (contains_sep "_" "more_" _ _ "]" eq_refl).
    rewrite !contains_empty, orb_false_r. cbn [orb].
    subst J. rewrite contains_join.
    induction IHl as [|x l Hx Hl IH]; [reflexivity|].
    cbn [map existsb]. now rewrite Hx, IH.
  - cbn [py_repr mentions_more].
    set (J := join ", " _).
    change ("{" ++ J ++ "}") with (EmptyString ++ String "{" (J ++ String "}" EmptyString)).
    rewrite (contains_sep "_" "more_" _ _ "{" eq_refl).
    rewrite (contains_sep "_" "more_" _ _ "}" eq_refl).
    rewrite !contains_empty, orb_false_r. cbn [orb].
    subst J. rewrite contains_join.
    induction IHkv as [|[k x] kv Hx Hkv IH]; [reflexivity|].
    cbn [map existsb fst snd]. rewrite IH. f_equal.
    change (repr_str k ++ ": " ++ py_repr x)
      with (repr_str k ++ String ":" (String " " (py_repr x))).
    rewrite (contains_sep "_" "more_" _ _ ":" eq_refl).
    rewrite contains_cons. cbn in Hx. rewrite Hx.
    now rewrite contains_repr_str.
Qed.

Lemma has_more_mentions (page : value) : has_more page = mentions_more page.
Proof.
  unfold has_more. destruct page; try apply contains_py_repr. reflexivity.
Qed.

(** C6, as the code has it.  The helper goes on exactly when the text
    [_more_] occurs somewhere in the page: in a field name or in a text
    value, in any record, at any depth, whatever the value of the field.
    When it occurs, the helper logs, fetches the next page and calls itself
    on it; when it does not, the helper fetches one page and returns. *)
Theorem continuation_test_is_textual :
  forall (St : Type) (serve : St -> string -> rest_response * St)
         (json_loads : string -> option value)
         (fuel : nat) (page : value) (acc : list value) (url : string) (lim : Z)
         (w : world St),
    has_more page = mentions_more page
    /\ no_limit_mocker St serve json_loads fuel page acc url lim w
       = let u := page_url url (lim + 500) in
         let next := decoded json_loads (fst (serve (server w) u)) in
         if mentions_more page then
           let w1 :=
             fetched St serve json_loads u
               (log_to w [Log INFO ("Fetching " ++ str_of_Z (lim + 500 - 500 + 1)
                                      ++ " - " ++ str_of_Z (lim + 500)
                                      ++ " Records. Please Wait...")]) in
           match extend acc next, fuel with
           | Ok acc', S fuel' =>
               no_limit_mocker St serve json_loads fuel' next acc' url (lim + 500) w1
           | Ok _, O => (OutOfFuel, w1)
           | Raise e, _ => (Raise e, w1)
           | OutOfFuel, _ => (OutOfFuel, w1)
           end
         else (extend acc next, fetched St serve json_loads u w).
Proof.
  intros St serve jl fuel page acc url lim w.
  split; [apply has_more_mentions|].
  cbv zeta. rewrite mocker_unfold, has_more_mentions.
  destruct (mentions_more page).
  - unfold bind at 1. rewrite emit_run. rewrite fetch_run.
    unfold bind, lift.
    destruct (extend acc _); destruct fuel; reflexivity.
  - rewrite fetch_run. unfold bind, lift, ret.
    destruct (extend acc _); reflexivity.
Qed.

(** C6, as stated, fails.  Three pages whose last record has no true
    marker field are taken as announcing more; for the first of them the
    run shows the two further requests. *)
Lemma marker_reading_counterexample :
  (spec_signals_more Scenario.subject_page = false
   /\ has_more Scenario.subject_page = true)
  /\ (spec_signals_more Scenario.false_marker_page = false
      /\ has_more Scenario.false_marker_page = true)
  /\ (spec_signals_more Scenario.first_marked_page = false
      /\ has_more Scenario.first_marked_page = true)
  /\ decoded Json.loads
       (fst (Scenario.subject_server tt (Scenario.query_url ++ "&S=0")))
     = Scenario.subject_page
  /\ exists merged w',
       fetch_commits unit Scenario.subject_server Json.loads 1
         {| stop_default := Scenario.t0 |} Scenario.api None None None
         (Scenario.world0 Scenario.t0)
       = (Ok (merged, "2021-10-26 00:00:00"), w')
       /\ requests (trace w')
          = [Scenario.query_url ++ "&S=0"; Scenario.query_url ++ "&S=500&n=500";
             Scenario.query_url ++ "&S=1000&n=500"].
Proof.
  repeat split; try (vm_compute; reflexivity).
  eexists. eexists. split; vm_compute; reflexivity.
Qed.

(** ** Resolution of the owner and of the submitter *)

Lemma dict_get_set_other (kv : list (string * value)) (k k' : string) (x : value) :
  String.eqb k' k = false -> dict_get (dict_set kv k x) k' = dict_get kv k'.
Proof.
  intros H. induction kv as [|[k0 v0] kv IH]; cbn [dict_set dict_get].
  - now rewrite H.
  - destruct (String.eqb k k0) eqn:E; cbn [dict_get].
    + apply String.eqb_eq in E; subst k0. now rewrite H.
    + now rewrite IH.
Qed.

Lemma dict_get_absent (kv : list (string * value)) (k : string) :
  (forall x, ~ In (k, x) kv) -> dict_get kv k = PNone.
Proof.
  induction kv as [|[k0 v0] kv IH]; intros H; cbn [dict_get]; [reflexivity|].
  destruct (String.eqb_spec k k0) as [-> | Hne].
  - exfalso. apply (H v0). now left.
  - apply IH. intros x Hx. apply (H x). now right.
Qed.

Section Resolution.

Variable St : Type.
Variable serve : St -> string -> rest_response * St.
Variable json_loads : string -> option value.
Variable self : GerritApi.

Lemma bind_lift_ok {A B : Type} (a : A) (k : A -> M St B) (w : world St) :
  bind (lift (Ok a)) k w = k a w.
Proof. reflexivity. Qed.

Lemma bind_lift_raise {A B : Type} (e : exn) (k : A -> M St B) (w : world St) :
  bind (lift (Raise e)) k w = (Raise e, w).
Proof. reflexivity. Qed.

Lemma for_each_app {A B : Type} (body : A -> M St B) (pre rest : list A)
      (done : list B) (w w1 : world St) :
  for_each body pre w = (Ok done, w1) ->
  for_each body (pre ++ rest) w
  = match for_each body rest w1 with
    | (Ok rs, w2) => (Ok (done ++ rs)%list, w2)
    | (Raise e, w2) => (Raise e, w2)
    | (OutOfFuel, w2) => (OutOfFuel, w2)
    end.
Proof.
  revert done w. induction pre as [|a pre IH]; intros done w H.
  - cbn in H. injection H as <- <-. cbn [app].
    destruct (for_each body rest w) as [[rs | e |] w2]; reflexivity.
  - cbn [app for_each] in *. unfold bind at 1 in H. unfold bind at 1.
    destruct (body a w) as [[b | e |] w'] eqn:Eb; try discriminate H.
    unfold bind at 1 in H. unfold bind at 1.
    destruct (for_each body pre w') as [[bs | e |] w''] eqn:Ef; try discriminate H.
    cbn in H. injection H as <- <-.
    rewrite (IH bs w' Ef).
    destruct (for_each body rest w'') as [[rs | e |] w2]; reflexivity.
Qed.

(** What the body of the loop does with a record that has an owner
    object. *)
Lemma resolve_commit_run (kv okv : list (string * value)) (w : world St) :
  dict_get kv "owner" = PDict okv ->
  resolve_commit St serve json_loads self (PDict kv) w
  = let u := account_url self (dict_get okv "_account_id") in
    let w2 := fetched St serve json_loads u w in
    match decoded json_loads (fst (serve (server w) u)) with
    | PDict dkv =>
        let kv1 := dict_set kv "owner" (dict_get dkv "name") in
        match dict_get kv "submitter" with
        | PDict (p :: skv) =>
            let u2 := account_url self (dict_get (p :: skv) "_account_id") in
            match decoded json_loads (fst (serve (server w2) u2)) with
            | PDict d2 =>
                (Ok (PDict (dict_set kv1 "submitter" (dict_get d2 "name"))),
                 fetched St serve json_loads u2 w2)
            | _ => (Raise AttributeError, fetched St serve json_loads u2 w2)
            end
        | s => if truthy s then (Raise AttributeError, w2)
               else (Ok (PDict kv1), w2)
        end
    | _ => (Raise AttributeError, w2)
    end.
Proof.
  intros Hown. cbv zeta. unfold resolve_commit.
  cbn [py_get]. rewrite Hown, bind_lift_ok. cbv beta.
  cbn [py_get]. rewrite bind_lift_ok. cbv beta.
  fold (account_url self (dict_get okv "_account_id")).
  rewrite fetch_run.
  destruct (decoded json_loads _) as [| | | | | | dkv];
    cbn [py_get]; try (rewrite bind_lift_raise; reflexivity).
  rewrite bind_lift_ok. cbv beta. cbn [py_setitem].
  rewrite bind_lift_ok. cbv beta. cbn [py_get].
  rewrite bind_lift_ok. cbv beta.
  rewrite (dict_get_set_other kv "owner" "submitter" _ eq_refl).
  destruct (dict_get kv "submitter") as [| b | z | s | s | l | skv];
    cbn [truthy negb]; try reflexivity.
  - destruct b; reflexivity.
  - destruct (negb (z =? 0)); reflexivity.
  - destruct (negb (String.eqb s EmptyString)); reflexivity.
  - destruct (negb (String.eqb s EmptyString)); reflexivity.
  - destruct l; reflexivity.
  - destruct skv as [|p skv]; [reflexivity|].
    cbn [py_get]. rewrite bind_lift_ok. cbv beta.
    cbn [py_get]. rewrite bind_lift_ok. cbv beta.
    fold (account_url self (dict_get (p :: skv) "_account_id")).
    rewrite fetch_run.
    destruct (decoded json_loads _) as [| | | | | | d2];
      cbn [py_get]; try (rewrite bind_lift_raise; reflexivity).
    rewrite bind_lift_ok. reflexivity.
Qed.

End Resolution.

(** C9, as the code has it.  Take the loop at a record with an owner
    object, the records before it being done.  When the detail of the
    account decodes to an object, the owner becomes its [name], which is
    [None] when the object has no such field, and the loop goes on (the
    submitter, when there is one, is looked up the same way).  When the
    detail decodes to anything else - [None], text, a list - the loop ends
    there with [AttributeError] and nothing is returned. *)
Theorem failed_lookup_aborts :
  forall (St : Type) (serve : St -> string -> rest_response * St)
         (json_loads : string -> option value) (self : GerritApi)
         (pre done rest : list value) (kv okv : list (string * value))
         (w w1 : world St),
    for_each (resolve_commit St serve json_loads self) pre w = (Ok done, w1) ->
    dict_get kv "owner" = PDict okv ->
    for_each (resolve_commit St serve json_loads self) (pre ++ PDict kv :: rest) w
    = let u := account_url self (dict_get okv "_account_id") in
      let w2 := fetched St serve json_loads u w1 in
      match decoded json_loads (fst (serve (server w1) u)) with
      | PDict dkv =>
          let kv1 := dict_set kv "owner" (dict_get dkv "name") in
          match dict_get kv "submitter" with
          | PDict (p :: skv) =>
              let u2 := account_url self (dict_get (p :: skv) "_account_id") in
              let w3 := fetched St serve json_loads u2 w2 in
              match decoded json_loads (fst (serve (server w2) u2)) with
              | PDict d2 =>
                  continue_with
                    (done ++ [PDict (dict_set kv1 "submitter" (dict_get d2 "name"))])
                    (for_each (resolve_commit St serve json_loads self) rest w3)
              | _ => (Raise AttributeError, w3)
              end
          | s =>
              if truthy s then (Raise AttributeError, w2)
              else continue_with (done ++ [PDict kv1])
                     (for_each (resolve_commit St serve json_loads self) rest w2)
          end
      | _ => (Raise AttributeError, w2)
      end.
Proof.
  intros St serve jl self pre done rest kv okv w w1 Hpre Hown.
  rewrite (for_each_app St _ pre (PDict kv :: rest) done w w1 Hpre).
  cbn [for_each]. unfold bind at 1.
  rewrite (resolve_commit_run St serve jl self kv okv w1 Hown). cbv zeta.
  assert (Hgo : forall (c : value) (w' : world St),
             match
               bind (for_each (resolve_commit St serve jl self) rest)
                    (fun bs => ret (c :: bs)) w'
             with
             | (Ok rs, w2) => (Ok (done ++ rs)%list, w2)
             | (Raise e, w2) => (Raise e, w2)
             | (OutOfFuel, w2) => (OutOfFuel, w2)
             end
             = continue_with (done ++ [c])
                 (for_each (resolve_commit St serve jl self) rest w')).
  { intros c w'. unfold bind, ret, continue_with.
    destruct (for_each _ rest w') as [[rs | e |] w2]; try reflexivity.
    now rewrite <- app_assoc. }
  destruct (decoded jl _) as [| | | | | | dkv]; try reflexivity.
  destruct (dict_get kv "submitter") as [| b | z | s | s | l | skv];
    cbn [truthy]; try apply Hgo.
  - destruct b; [reflexivity | apply Hgo].
  - destruct (negb (z =? 0)); [reflexivity | apply Hgo].
  - destruct (negb (String.eqb s EmptyString)); [reflexivity | apply Hgo].
  - destruct (negb (String.eqb s EmptyString)); [reflexivity | apply Hgo].
  - destruct l; [apply Hgo | reflexivity].
  - destruct skv as [|p skv]; [apply Hgo|].
    destruct (decoded jl _) as [| | | | | | d2]; try reflexivity.
    apply Hgo.
Qed.

(** On the server whose account details have no name, both records get
    the owner [None] and the loop runs to its end. *)
Lemma failed_lookup_aborts_witness :
  for_each (resolve_commit unit Scenario.nameless_server Json.loads Scenario.api)
    ([] ++ Scenario.record_1 :: [Scenario.record_2]) (Scenario.world0 Scenario.t0)
  = (Ok [PDict [("_number", PInt 1); ("owner", PNone)];
         PDict [("_number", PInt 2); ("owner", PNone)]],
     log_to (Scenario.world0 Scenario.t0)
       [Request "https://gerrit.example/accounts/7/detail";
        Request "https://gerrit.example/accounts/7/detail"]).
Proof.
  etransitivity.
  - apply (failed_lookup_aborts unit Scenario.nameless_server Json.loads Scenario.api
             [] [] [Scenario.record_2]
             [("_number", PInt 1); ("owner", PDict [("_account_id", PInt 7)])]
             [("_account_id", PInt 7)]
             (Scenario.world0 Scenario.t0) (Scenario.world0 Scenario.t0)).
    + reflexivity.
    + reflexivity.
  - vm_compute. reflexivity.
Defined.

(** C9, as stated, fails: the account lookup fails in the transport, its
    decoded result is [None], and the whole query ends with
    [AttributeError]. *)
Lemma failed_lookup_counterexample :
  decoded Json.loads
    (fst (Scenario.lookup_down_server tt "https://gerrit.example/accounts/7/detail"))
  = PNone
  /\ exists w',
       get_commit_details_in_given_period unit Scenario.lookup_down_server
         Json.loads 1 {| stop_default := Scenario.t0 |} Scenario.api
         None None None (Scenario.world0 Scenario.t0)
       = (Raise AttributeError, w').
Proof.
  split; [vm_compute; reflexivity|].
  eexists. vm_compute. reflexivity.
Qed.

(** ** The default of [stop] *)

Section ClockBlind.

Variable St : Type.
Variable serve : St -> string -> rest_response * St.
Variable json_loads : string -> option value.

Lemma blind_ret {A : Type} (a : A) : clock_blind (@ret St A a).
Proof. intros w1 w2 H. split; [reflexivity | exact H]. Qed.

Lemma blind_lift {A : Type} (o : outcome A) : clock_blind (@lift St A o).
Proof. intros w1 w2 H. split; [reflexivity | exact H]. Qed.

Lemma blind_emit (e : event) : clock_blind (@emit St e).
Proof.
  intros w1 w2 [Hs Ht]. split; [reflexivity|].
  split; cbn; [exact Hs | now rewrite Ht].
Qed.

Lemma blind_request (u : string) : clock_blind (rest_request St serve u).
Proof.
  intros w1 w2 [Hs Ht]. unfold rest_request. rewrite Hs.
  destruct (serve (server w2) u) as [r s]. split; [reflexivity|].
  split; cbn; [reflexivity | now rewrite Ht].
Qed.

Lemma blind_bind {A B : Type} (m : M St A) (k : A -> M St B) :
  clock_blind m -> (forall a, clock_blind (k a)) -> clock_blind (bind m k).
Proof.
  intros Hm Hk w1 w2 H. unfold bind.
  destruct (Hm w1 w2 H) as [Ho Hw].
  destruct (m w1) as [o1 w1'], (m w2) as [o2 w2']. cbn [fst snd] in Ho, Hw.
  subst o2. destruct o1 as [a | e |]; [apply Hk; exact Hw | |]; split; auto.
Qed.

Lemma blind_decode (r : rest_response) :
  clock_blind (@decode_response St json_loads r).
Proof.
  intros w1 w2 [Hs Ht]. rewrite !decode_response_run. split; [reflexivity|].
  split; cbn; [exact Hs | now rewrite Ht].
Qed.

Lemma blind_for_each {A B : Type} (body : A -> M St B) (l : list A) :
  (forall a, clock_blind (body a)) -> clock_blind (for_each body l).
Proof.
  intros Hb. induction l as [|a l IH]; cbn [for_each].
  - apply blind_ret.
  - apply blind_bind; [apply Hb | intros b].
    apply blind_bind; [exact IH | intros bs]. apply blind_ret.
Qed.

Ltac blind :=
  repeat first
    [ apply blind_ret | apply blind_lift | apply blind_emit
    | apply blind_request | apply blind_decode
    | apply blind_bind; [| intros ?] ].

Lemma blind_mocker (fuel : nat) :
  forall (p : value) (acc : list value) (url : string) (lim : Z),
    clock_blind (no_limit_mocker St serve json_loads fuel p acc url lim).
Proof.
  induction fuel as [|fuel IH]; intros p acc url lim;
    rewrite mocker_unfold; destruct (has_more p); blind.
  apply IH.
Qed.

Lemma blind_fetch_commits (fuel : nat) (cls : GerritApi_class) (self : GerritApi)
      (start duration : option value) (stop : option datetime) :
  clock_blind (fetch_commits St serve json_loads fuel cls self start duration stop).
Proof. unfold fetch_commits. cbv zeta. blind. apply blind_mocker. Qed.

Lemma blind_resolve_commit (self : GerritApi) (c : value) :
  clock_blind (resolve_commit St serve json_loads self c).
Proof.
  unfold resolve_commit. blind.
  match goal with |- clock_blind (if ?b then _ else _) => destruct b end; blind.
Qed.

Lemma blind_get_commit_details (fuel : nat) (cls : GerritApi_class)
      (self : GerritApi) (start duration : option value) (stop : option datetime) :
  clock_blind (get_commit_details_in_given_period St serve json_loads fuel cls
                 self start duration stop).
Proof.
  unfold get_commit_details_in_given_period.
  apply blind_bind; [apply blind_fetch_commits | intros [l s]].
  apply blind_bind; [apply blind_for_each, blind_resolve_commit | intros l'].
  blind.
Qed.

End ClockBlind.

(** Reading the clock is what a clock-blind computation cannot do. *)
Lemma utcnow_reads_the_clock : ~ clock_blind (@utcnow unit).
Proof.
  intros H.
  destruct (H (Scenario.world0 0) (Scenario.world0 1)) as [Ho _].
  - split; reflexivity.
  - discriminate Ho.
Qed.

(** C10.  The class body reads the clock once, for the default of [stop].
    A call that leaves [stop] out is the call with the instant of the class
    definition, and what it does is the same whatever the clock shows when
    it is made: two such calls look at the same window. *)
Theorem default_stop_is_definition_time :
  forall (St : Type) (serve : St -> string -> rest_response * St)
         (json_loads : string -> option value) (fuel : nat) (self : GerritApi)
         (start duration : option value)
         (cls : GerritApi_class) (w_def w_def' w1 w2 : world St),
    class_GerritApi w_def = (Ok cls, w_def') ->
    same_but_clock w1 w2 ->
    let call := fun (stop : option datetime) =>
                  get_commit_details_in_given_period St serve json_loads fuel cls
                    self start duration stop in
    call None w1 = call (Some (clock w_def)) w1
    /\ fst (call None w1) = fst (call None w2)
    /\ same_but_clock (snd (call None w1)) (snd (call None w2)).
Proof.
  intros St serve jl fuel self start duration cls w_def w_def' w1 w2 Hdef Hw call.
  assert (Hcls : stop_default cls = clock w_def).
  { unfold class_GerritApi, bind, utcnow, ret in Hdef.
    injection Hdef as <- _. reflexivity. }
  split.
  - subst call. unfold get_commit_details_in_given_period, fetch_commits.
    cbn [arg]. now rewrite Hcls.
  - apply blind_get_commit_details. exact Hw.
Qed.

Lemma default_stop_is_definition_time_witness :
  get_commit_details_in_given_period unit Scenario.two_page_server Json.loads 1
    {| stop_default := Scenario.t0 |} Scenario.api None None None
    (Scenario.world0 (Scenario.t0 + us_per_day))
  = get_commit_details_in_given_period unit Scenario.two_page_server Json.loads 1
      {| stop_default := Scenario.t0 |} Scenario.api None None
      (Some (clock (Scenario.world0 Scenario.t0)))
      (Scenario.world0 (Scenario.t0 + us_per_day))
  /\ fst (get_commit_details_in_given_period unit Scenario.two_page_server
            Json.loads 1 {| stop_default := Scenario.t0 |} Scenario.api
            None None None (Scenario.world0 (Scenario.t0 + us_per_day)))
     = fst (get_commit_details_in_given_period unit Scenario.two_page_server
              Json.loads 1 {| stop_default := Scenario.t0 |} Scenario.api
              None None None (Scenario.world0 (Scenario.t0 + 7 * us_per_day)))
  /\ same_but_clock
       (snd (get_commit_details_in_given_period unit Scenario.two_page_server
               Json.loads 1 {| stop_default := Scenario.t0 |} Scenario.api
               None None None (Scenario.world0 (Scenario.t0 + us_per_day))))
       (snd (get_commit_details_in_given_period unit Scenario.two_page_server
               Json.loads 1 {| stop_default := Scenario.t0 |} Scenario.api
               None None None (Scenario.world0 (Scenario.t0 + 7 * us_per_day)))).
Proof.
  apply (default_stop_is_definition_time unit Scenario.two_page_server Json.loads 1
           Scenario.api None None {| stop_default := Scenario.t0 |}
           (Scenario.world0 Scenario.t0) (Scenario.world0 Scenario.t0)
           (Scenario.world0 (Scenario.t0 + us_per_day))
           (Scenario.world0 (Scenario.t0 + 7 * us_per_day))).
  - reflexivity.
  - split; reflexivity.
Defined.

(** * Further properties of the code *)

(** ** The duration parser, continued *)

(** X1.  A duration in which none of the four keywords occurs - the
    singular [1Month] of the command-line help, a bare number - leaves
    [start] unbound, and [get_start_time] raises [UnboundLocalError]. *)
Theorem get_start_time_no_unit :
  forall (duration : value) (stop : datetime),
    units_found (lower (py_str duration)) = 0%nat ->
    get_start_time duration stop = Raise UnboundLocalError.
Proof.
  intros duration stop H.
  unfold get_start_time, units_found in *. cbv zeta.
  set (d := lower (py_str duration)) in *.
  cbn [filter] in H.
  destruct (contains "minutes" d); [discriminate H|].
  destruct (contains "hours" d); [discriminate H|].
  destruct (contains "days" d); [discriminate H|].
  destruct (contains "months" d); [discriminate H|].
  reflexivity.
Qed.

Lemma get_start_time_no_unit_witness :
  get_start_time (PStr "1Month") Scenario.t0 = Raise UnboundLocalError.
Proof.
  apply (get_start_time_no_unit (PStr "1Month") Scenario.t0).
  vm_compute. reflexivity.
Defined.








(** ** The response decoder, continued *)

(** X4.  A body that the transport has already parsed (or any body that is
    not text) comes back unchanged from a 200 answer too, but the call is
    logged as failed: the test for text sits in the same condition as the
    test of the status. *)
Theorem decode_response_logs_parsed_body :
  forall (St : Type) (json_loads : string -> option value)
         (code body headers : value) (w : world St),
    py_str code = "200" ->
    (forall s, body <> PStr s) ->
    decode_response json_loads
      {| response_code := code; response_body := body;
         response_headers := headers |} w
    = (Ok body,
       log_to w [Log ERROR ("Rest Call Failed with the status code 200 and response "
                              ++ py_str body)]).
Proof.
  intros St jl code body headers w Hc Hb.
  rewrite decode_response_run. unfold decoded, decode_log.
  cbn [response_code response_body]. rewrite Hc.
  destruct body; try reflexivity. now destruct (Hb s).
Qed.

Lemma decode_response_logs_parsed_body_witness :
  decode_response Json.loads
    {| response_code := PInt 200; response_body := PList [];
       response_headers := PNone |} (Scenario.world0 Scenario.t0)
  = (Ok (PList []),
     log_to (Scenario.world0 Scenario.t0)
       [Log ERROR ("Rest Call Failed with the status code 200 and response "
                     ++ py_str (PList []))]).
Proof.
  apply (decode_response_logs_parsed_body unit Json.loads (PInt 200) (PList []) PNone).
  - reflexivity.
  - discriminate.
Defined.

(** X5.  [decode_response] sends no request and leaves the server and the
    clock as they are; all it adds to the trace is at most one record, an
    error record. *)
Theorem decode_response_footprint :
  forall (St : Type) (json_loads : string -> option value) (r : rest_response)
         (w : world St),
  exists evs,
    snd (decode_response json_loads r w) = log_to w evs
    /\ (List.length evs <= 1)%nat
    /\ Forall (fun e => exists m, e = Log ERROR m) evs
    /\ requests (trace (snd (decode_response json_loads r w))) = requests (trace w).
Proof.
  intros St jl r w. exists (decode_log jl r).
  rewrite decode_response_run. cbn [snd].
  split; [reflexivity|].
  assert (H : (List.length (decode_log jl r) <= 1)%nat
              /\ Forall (fun e => exists m, e = Log ERROR m) (decode_log jl r)).
  { unfold decode_log.
    destruct (String.eqb _ _);
      [destruct (response_body r);
       try (destruct (startswith _ _); [destruct (jl _)|])|];
      cbn [List.length]; split; try lia; repeat constructor; eexists; reflexivity. }
  destruct H as [Hl Hf]. split; [exact Hl|]. split; [exact Hf|].
  cbn [log_to trace]. rewrite requests_app, requests_decode_log.
  apply app_nil_r.
Qed.

(** ** The pagination helper, continued *)

Section Footprint.

Variable St : Type.
Variable serve : St -> string -> rest_response * St.
Variable json_loads : string -> option value.

(** Whatever the server answers and however the call ends, the helper has
    asked for the pages at the next offsets, one after the other, and what it
    returns begins with the list it was given. *)
Lemma mocker_footprint (url : string) :
  forall (fuel : nat) (p : value) (acc : list value) (lim : Z) (w : world St)
         (o : outcome (list value)) (w' : world St),
    no_limit_mocker St serve json_loads fuel p acc url lim w = (o, w') ->
    (exists k, (1 <= k <= S fuel)%nat
               /\ requests (trace w')
                  = (requests (trace w) ++ page_urls k url lim)%list)
    /\ forall res, o = Ok res -> exists more, res = (acc ++ more)%list.
Proof.
  induction fuel as [|fuel IH]; intros p acc lim w o w' E;
    rewrite mocker_unfold in E; destruct (has_more p).
  - unfold bind at 1 in E. rewrite emit_run in E. set (w0 := log_to w _) in E.
    rewrite fetch_run in E. unfold bind, lift in E.
    assert (Hreq : requests (trace (fetched St serve json_loads (page_url url (lim + 500)) w0))
                   = (requests (trace w) ++ page_urls 1 url lim)%list).
    { rewrite requests_fetched. subst w0. cbn [log_to trace].
      rewrite requests_app. cbn [requests]. now rewrite app_nil_r. }
    destruct (extend acc _) as [acc' | e |]; injection E as <- <-;
      (split; [exists 1%nat; split; [lia | exact Hreq] | intros res H; discriminate H]).
  - rewrite fetch_run in E. unfold bind, lift, ret, extend in E.
    destruct (py_iter _) as [items | e |]; cbn [obind] in E; injection E as <- <-;
      (split; [exists 1%nat; split; [lia | now rewrite requests_fetched]|]);
      intros res H; try discriminate H.
    injection H as <-. now exists items.
  - unfold bind at 1 in E. rewrite emit_run in E. set (w0 := log_to w _) in E.
    rewrite fetch_run in E. unfold bind at 1, lift, extend in E.
    set (w1 := fetched St serve json_loads (page_url url (lim + 500)) w0) in E.
    assert (Hreq : requests (trace w1)
                   = (requests (trace w) ++ [page_url url (lim + 500)])%list).
    { subst w1. rewrite requests_fetched. subst w0. cbn [log_to trace].
      rewrite requests_app. cbn [requests]. now rewrite app_nil_r. }
    destruct (py_iter _) as [items | e |]; cbn [obind] in E.
    + destruct (IH _ _ _ _ _ _ E) as [[k [Hk Hr]] Hres].
      split.
      * exists (S k). split; [lia|]. rewrite Hr, Hreq. cbn [page_urls].
        now rewrite <- app_assoc.
      * intros res H. destruct (Hres res H) as [more ->].
        exists (items ++ more)%list. now rewrite app_assoc.
    + injection E as <- <-.
      split; [exists 1%nat; split; [lia | exact Hreq] | intros res H; discriminate H].
    + injection E as <- <-.
      split; [exists 1%nat; split; [lia | exact Hreq] | intros res H; discriminate H].
  - rewrite fetch_run in E. unfold bind, lift, ret, extend in E.
    destruct (py_iter _) as [items | e |]; cbn [obind] in E; injection E as <- <-;
      (split; [exists 1%nat; split; [lia | now rewrite requests_fetched]|]);
      intros res H; try discriminate H.
    injection H as <-. now exists items.
Qed.

End Footprint.

(** X6.  [no_limit_mocker] only ever appends: the list it returns begins
    with the records it was given, in their order. *)
Theorem no_limit_mocker_keeps_records :
  forall (St : Type) (serve : St -> string -> rest_response * St)
         (json_loads : string -> option value) (fuel : nat) (page : value)
         (acc res : list value) (url : string) (lim : Z) (w w' : world St),
    no_limit_mocker St serve json_loads fuel page acc url lim w = (Ok res, w') ->
    exists more, res = (acc ++ more)%list.
Proof.
  intros St serve jl fuel page acc res url lim w w' H.
  exact (proj2 (mocker_footprint St serve jl url fuel page acc lim w _ _ H)
           res eq_refl).
Qed.

Lemma no_limit_mocker_keeps_records_witness :
  exists more,
    [Scenario.record_1_more; Scenario.record_2]
    = ([Scenario.record_1_more] ++ more)%list.
Proof.
  apply (no_limit_mocker_keeps_records unit Scenario.two_page_server Json.loads 1
           (PList [Scenario.record_1_more]) [Scenario.record_1_more]
           [Scenario.record_1_more; Scenario.record_2] Scenario.query_url 0
           (Scenario.world0 Scenario.t0)
           (snd (no_limit_mocker unit Scenario.two_page_server Json.loads 1
                   (PList [Scenario.record_1_more]) [Scenario.record_1_more]
                   Scenario.query_url 0 (Scenario.world0 Scenario.t0)))).
  vm_compute. reflexivity.
Defined.

(** X7.  Whatever the server answers and however the call ends, the
    requests of [no_limit_mocker] are those for the offsets 500, 1000, ...
    after its starting offset, in this order and without a gap: at least
    one, at most one more than the depth of the recursion. *)
Theorem no_limit_mocker_requests :
  forall (St : Type) (serve : St -> string -> rest_response * St)
         (json_loads : string -> option value) (fuel : nat) (page : value)
         (acc : list value) (url : string) (lim : Z) (w : world St),
  exists k,
    (1 <= k <= S fuel)%nat
    /\ requests (trace (snd (no_limit_mocker St serve json_loads fuel page acc url lim w)))
       = (requests (trace w) ++ page_urls k url lim)%list.
Proof.
  intros St serve jl fuel page acc url lim w.
  apply (proj1 (mocker_footprint St serve jl url fuel page acc lim w _ _
                  (surjective_pairing _))).
Qed.

(** X8.  A page that cannot be iterated - [None] after a failed request -
    ends the helper with [TypeError], whether the page before it carried the
    marker or not. *)
Theorem no_limit_mocker_failed_page :
  forall (St : Type) (serve : St -> string -> rest_response * St)
         (json_loads : string -> option value) (fuel : nat) (page : value)
         (acc : list value) (url : string) (lim : Z) (w : world St),
    decoded json_loads (fst (serve (server w) (page_url url (lim + 500)))) = PNone ->
    fst (no_limit_mocker St serve json_loads fuel page acc url lim w)
    = Raise TypeError.
Proof.
  intros St serve jl fuel page acc url lim w H.
  rewrite mocker_unfold. destruct (has_more page).
  - unfold bind at 1. rewrite emit_run, fetch_run.
    change (server (log_to w _)) with (server w). rewrite H.
    destruct fuel; reflexivity.
  - rewrite fetch_run, H. reflexivity.
Qed.

Lemma no_limit_mocker_failed_page_witness :
  fst (no_limit_mocker unit (Scenario.stateless (fun _ => Scenario.no_answer))
         Json.loads 3 (PList [Scenario.record_1_more]) [] Scenario.query_url 0
         (Scenario.world0 Scenario.t0))
  = Raise TypeError.
Proof.
  apply (no_limit_mocker_failed_page unit
           (Scenario.stateless (fun _ => Scenario.no_answer)) Json.loads 3
           (PList [Scenario.record_1_more]) [] Scenario.query_url 0
           (Scenario.world0 Scenario.t0)).
  reflexivity.
Defined.

(** X9.  A page that is text - the body of an error answer, or a prefixed
    body that is not JSON - is merged as one record per character. *)
Theorem no_limit_mocker_text_page :
  forall (St : Type) (serve : St -> string -> rest_response * St)
         (json_loads : string -> option value) (fuel : nat) (page : value)
         (acc : list value) (url : string) (lim : Z) (w : world St) (s : string),
    has_more page = false ->
    decoded json_loads (fst (serve (server w) (page_url url (lim + 500)))) = PStr s ->
    exists res,
      fst (no_limit_mocker St serve json_loads fuel page acc url lim w) = Ok res
      /\ res = (acc ++ map (fun c => PStr (chr c)) (chars s))%list
      /\ List.length res = (List.length acc + String.length s)%nat.
Proof.
  intros St serve jl fuel page acc url lim w s Hm H.
  rewrite mocker_unfold, Hm, fetch_run, H.
  eexists. split; [reflexivity|]. split; [reflexivity|].
  rewrite length_app, length_map. f_equal.
  clear. induction s as [|c s IH]; cbn; auto.
Qed.

Lemma no_limit_mocker_text_page_witness :
  exists res,
    fst (no_limit_mocker unit
           (Scenario.stateless
              (fun _ => {| response_code := PInt 500;
                           response_body := PStr "Error";
                           response_headers := PNone |}))
           Json.loads 0 (PList [Scenario.record_1]) [Scenario.record_1]
           Scenario.query_url 0 (Scenario.world0 Scenario.t0))
    = Ok res
    /\ res = ([Scenario.record_1] ++ map (fun c => PStr (chr c)) (chars "Error"))%list
    /\ List.length res = (List.length [Scenario.record_1] + String.length "Error")%nat.
Proof.
  apply (no_limit_mocker_text_page unit
           (Scenario.stateless
              (fun _ => {| response_code := PInt 500;
                           response_body := PStr "Error";
                           response_headers := PNone |}))
           Json.loads 0 (PList [Scenario.record_1]) [Scenario.record_1]
           Scenario.query_url 0 (Scenario.world0 Scenario.t0) "Error").
  - reflexivity.
  - reflexivity.
Defined.

(** ** The query for the commits, continued *)

(** X10.  When no [start] is given and the duration cannot be turned into
    an instant, the query ends with the exception of [get_start_time] before
    anything is printed, logged or sent. *)
Theorem bad_duration_sends_nothing :
  forall (St : Type) (serve : St -> string -> rest_response * St)
         (json_loads : string -> option value) (fuel : nat)
         (cls : GerritApi_class) (self : GerritApi)
         (start duration : option value) (stop : option datetime)
         (e : exn) (w : world St),
    truthy (arg PNone start) = false ->
    get_start_time (arg (PStr "24Hours") duration) (arg (stop_default cls) stop)
    = Raise e ->
    get_commit_details_in_given_period St serve json_loads fuel cls self
      start duration stop w
    = (Raise e, w).
Proof.
  intros St serve jl fuel cls self start duration stop e w Hs He.
  unfold get_commit_details_in_given_period, fetch_commits. cbv zeta.
  unfold start_text. rewrite Hs. cbn [negb]. rewrite He. reflexivity.
Qed.

Lemma bad_duration_sends_nothing_witness :
  get_commit_details_in_given_period unit Scenario.two_page_server Json.loads 1
    {| stop_default := Scenario.t0 |} Scenario.api None (Some (PStr "1Month")) None
    (Scenario.world0 Scenario.t0)
  = (Raise UnboundLocalError, Scenario.world0 Scenario.t0).
Proof.
  apply (bad_duration_sends_nothing unit Scenario.two_page_server Json.loads 1
           {| stop_default := Scenario.t0 |} Scenario.api None
           (Some (PStr "1Month")) None UnboundLocalError).
  - reflexivity.
  - reflexivity.
Defined.

(** X11.  When the first request fails and its body is [None], the query
    ends with [TypeError] right after that one request: the first page is
    put into the list before it is looked at. *)
Theorem failed_first_page :
  forall (St : Type) (serve : St -> string -> rest_response * St)
         (json_loads : string -> option value) (fuel : nat)
         (cls : GerritApi_class) (self : GerritApi)
         (start duration : option value) (stop : option datetime)
         (w : world St) (text : string),
    start_text (arg PNone start) (arg (PStr "24Hours") duration)
               (arg (stop_default cls) stop) = Ok text ->
    forall url0 : string,
      url0 = gerrit_url self ++ GET_COMMITS_USING_AFTER
               ++ chr dquote ++ text ++ chr dquote ++ "&S=0" ->
      decoded json_loads (fst (serve (server w) url0)) = PNone ->
      exists w',
        get_commit_details_in_given_period St serve json_loads fuel cls self
          start duration stop w
        = (Raise TypeError, w')
        /\ requests (trace w') = (requests (trace w) ++ [url0])%list.
Proof.
  intros St serve jl fuel cls self start duration stop w text Hstart url0 Hu Hd.
  assert (Hf : fetch_commits St serve jl fuel cls self start duration stop w
               = (Raise TypeError,
                  fetched St serve jl url0 (log_to w [Print url0]))).
  { unfold fetch_commits. cbv zeta. rewrite Hstart, bind_lift_ok. cbv beta.
    rewrite <- Hu. unfold bind at 1. rewrite emit_run, fetch_run.
    change (server (log_to w [Print url0])) with (server w). now rewrite Hd. }
  unfold get_commit_details_in_given_period. unfold bind at 1. rewrite Hf.
  eexists. split; [reflexivity|].
  rewrite requests_fetched. cbn [log_to trace].
  rewrite requests_app. cbn [requests]. now rewrite app_nil_r.
Qed.

Lemma failed_first_page_witness :
  exists w',
    get_commit_details_in_given_period unit
      (Scenario.stateless (fun _ => Scenario.no_answer)) Json.loads 1
      {| stop_default := Scenario.t0 |} Scenario.api None None None
      (Scenario.world0 Scenario.t0)
    = (Raise TypeError, w')
    /\ requests (trace w')
       = (requests (trace (Scenario.world0 Scenario.t0))
            ++ [(Scenario.query_url ++ "&S=0")%string])%list.
Proof.
  apply (failed_first_page unit (Scenario.stateless (fun _ => Scenario.no_answer))
           Json.loads 1 {| stop_default := Scenario.t0 |} Scenario.api
           None None None (Scenario.world0 Scenario.t0) "2021-10-26 00:00:00").
  - vm_compute. reflexivity.
  - vm_compute. reflexivity.
  - reflexivity.
Defined.

Lemma dict_get_in (kv : list (string * value)) (k : string) :
  dict_get kv k <> PNone -> In k (map fst kv).
Proof.
  induction kv as [|[k0 v0] kv IH]; cbn [dict_get map fst]; intros H.
  - now destruct H.
  - destruct (String.eqb_spec k k0) as [-> | Hne]; [now left | right; auto].
Qed.

Lemma dict_set_keys (kv : list (string * value)) (k : string) (x : value) :
  In k (map fst kv) -> map fst (dict_set kv k x) = map fst kv.
Proof.
  induction kv as [|[k0 v0] kv IH]; cbn [dict_set map fst]; intros H.
  - destruct H.
  - destruct (String.eqb_spec k k0) as [-> | Hne]; [reflexivity|].
    cbn [map fst]. f_equal. apply IH. destruct H as [H | H]; [congruence | exact H].
Qed.

Lemma for_each_forall2 {St A B : Type} (body : A -> M St B) (R : A -> B -> Prop) :
  (forall a b w w', body a w = (Ok b, w') -> R a b) ->
  forall (l : list A) (l' : list B) (w w' : world St),
    for_each body l w = (Ok l', w') -> Forall2 R l l'.
Proof.
  intros HR. induction l as [|a l IH]; intros l' w w' H; cbn [for_each] in H.
  - injection H as <- _. constructor.
  - unfold bind at 1 in H.
    destruct (body a w) as [[b | e |] w1] eqn:Eb; try discriminate H.
    unfold bind at 1 in H.
    destruct (for_each body l w1) as [[bs | e |] w2] eqn:Ef; try discriminate H.
    injection H as <- _. constructor; eauto.
Qed.

Section Shape.

Variable St : Type.
Variable serve : St -> string -> rest_response * St.
Variable json_loads : string -> option value.
Variable self : GerritApi.

(** A record that comes out of the body of the loop went in as an object
    with an owner object. *)
Lemma resolve_commit_ok (c c' : value) (w w' : world St) :
  resolve_commit St serve json_loads self c w = (Ok c', w') ->
  exists kv okv, c = PDict kv /\ dict_get kv "owner" = PDict okv.
Proof.
  intros H. unfold resolve_commit in H.
  destruct c as [| | | | | | kv]; try discriminate H.
  cbn [py_get] in H. rewrite bind_lift_ok in H.
  destruct (dict_get kv "owner") as [| | | | | | okv] eqn:Hown;
    try discriminate H.
  now exists kv, okv.
Qed.

Lemma resolve_commit_shape (c c' : value) (w w' : world St) :
  resolve_commit St serve json_loads self c w = (Ok c', w') ->
  resolved_from c c'
  /\ List.length (requests (trace w'))
     = (List.length (requests (trace w)) + lookups c)%nat.
Proof.
  intros H. destruct (resolve_commit_ok c c' w w' H) as (kv & okv & -> & Hown).
  rewrite (resolve_commit_run St serve json_loads self kv okv w Hown) in H.
  cbv zeta in H.
  assert (Hin : In "owner" (map fst kv))
    by (apply dict_get_in; rewrite Hown; discriminate).
  assert (Howner : forall x, resolved_from (PDict kv) (PDict (dict_set kv "owner" x))).
  { intros x. exists kv, (dict_set kv "owner" x).
    repeat split; [now apply dict_set_keys|].
    intros k Hk _. apply dict_get_set_other. now apply String.eqb_neq. }
  set (u := account_url self (dict_get okv "_account_id")) in H.
  assert (H1 : List.length (requests (trace (fetched St serve json_loads u w)))
               = (List.length (requests (trace w)) + 1)%nat)
    by (rewrite requests_fetched, length_app; reflexivity).
  destruct (decoded json_loads (fst (serve (server w) u))) as [| | | | | | dkv];
    try discriminate H.
  cbn [lookups].
  destruct (dict_get kv "submitter") as [| b | z | s | s | l | skv] eqn:Hsub;
    cbn [truthy] in H |- *.
  - injection H as <- <-. auto.
  - destruct b; [discriminate H | injection H as <- <-; auto].
  - destruct (negb (z =? 0)); [discriminate H | injection H as <- <-; auto].
  - destruct (negb (String.eqb s EmptyString));
      [discriminate H | injection H as <- <-; auto].
  - destruct (negb (String.eqb s EmptyString));
      [discriminate H | injection H as <- <-; auto].
  - destruct l; [injection H as <- <-; auto | discriminate H].
  - destruct skv as [|p skv]; [injection H as <- <-; auto|].
    set (u2 := account_url self (dict_get (p :: skv) "_account_id")) in H.
    destruct (decoded json_loads _) as [| | | | | | d2]; try discriminate H.
    injection H as <- <-. split.
    + exists kv, (dict_set (dict_set kv "owner" (dict_get dkv "name")) "submitter"
                           (dict_get d2 "name")).
      repeat split.
      * rewrite dict_set_keys; [now apply dict_set_keys|].
        rewrite dict_set_keys by exact Hin.
        apply dict_get_in. rewrite Hsub. discriminate.
      * intros k Hk1 Hk2.
        rewrite dict_get_set_other by now apply String.eqb_neq.
        apply dict_get_set_other. now apply String.eqb_neq.
    + rewrite requests_fetched, length_app, H1. cbn [List.length]. lia.
Qed.

End Shape.

(** X12.  The resolution of the references keeps the merged list as it is:
    the query returns as many records as the pages brought, in the same
    order, each with the same fields in the same order and the same values
    but for [owner] and [submitter]. *)
Theorem resolution_keeps_records :
  forall (St : Type) (serve : St -> string -> rest_response * St)
         (json_loads : string -> option value) (fuel : nat)
         (cls : GerritApi_class) (self : GerritApi)
         (start duration : option value) (stop : option datetime)
         (w w' : world St) (result : list value),
    get_commit_details_in_given_period St serve json_loads fuel cls self
      start duration stop w
    = (Ok result, w') ->
    exists merged text w1,
      fetch_commits St serve json_loads fuel cls self start duration stop w
      = (Ok (merged, text), w1)
      /\ Forall2 resolved_from merged result
      /\ List.length result = List.length merged.
Proof.
  intros St serve jl fuel cls self start duration stop w w' result H.
  unfold get_commit_details_in_given_period in H. unfold bind at 1 in H.
  destruct (fetch_commits St serve jl fuel cls self start duration stop w)
    as [[[merged text] | e |] w1]; try discriminate H.
  unfold bind at 1 in H.
  destruct (for_each (resolve_commit St serve jl self) merged w1)
    as [[l | e |] w2] eqn:El; try discriminate H.
  unfold bind, emit, ret in H. injection H as <- _.
  assert (HF : Forall2 resolved_from merged l).
  { apply (for_each_forall2 (resolve_commit St serve jl self) resolved_from)
      with (w := w1) (w' := w2); [|exact El].
    intros a b wa wb Hab.
    exact (proj1 (resolve_commit_shape St serve jl self a b wa wb Hab)). }
  exists merged, text, w1. split; [reflexivity|]. split; [exact HF|].
  symmetry. exact (Forall2_length HF).
Qed.

Lemma resolution_keeps_records_witness :
  exists merged text w1,
    fetch_commits unit Scenario.two_page_server Json.loads 1
      {| stop_default := Scenario.t0 |} Scenario.api None None None
      (Scenario.world0 Scenario.t0)
    = (Ok (merged, text), w1)
    /\ Forall2 resolved_from merged
         [PDict [("_number", PInt 1); ("owner", PStr "Ann");
                 ("_more_changes", PBool true)];
          PDict [("_number", PInt 2); ("owner", PStr "Ann")]]
    /\ List.length
         [PDict [("_number", PInt 1); ("owner", PStr "Ann");
                 ("_more_changes", PBool true)];
          PDict [("_number", PInt 2); ("owner", PStr "Ann")]]
       = List.length merged.
Proof.
  eapply (resolution_keeps_records unit Scenario.two_page_server Json.loads 1
            {| stop_default := Scenario.t0 |} Scenario.api None None None
            (Scenario.world0 Scenario.t0)).
  vm_compute. reflexivity.
Defined.

(** X13.  A record without the field [owner] ends the loop with
    [AttributeError] before any lookup is sent for it; the records after it
    are not looked at. *)
Theorem record_without_owner :
  forall (St : Type) (serve : St -> string -> rest_response * St)
         (json_loads : string -> option value) (self : GerritApi)
         (kv : list (string * value)) (rest : list value) (w : world St),
    (forall x, ~ In ("owner", x) kv) ->
    for_each (resolve_commit St serve json_loads self) (PDict kv :: rest) w
    = (Raise AttributeError, w).
Proof.
  intros St serve jl self kv rest w H.
  cbn [for_each]. unfold bind at 1. unfold resolve_commit.
  cbn [py_get]. rewrite (dict_get_absent kv "owner" H). reflexivity.
Qed.

Lemma record_without_owner_witness :
  for_each (resolve_commit unit Scenario.two_page_server Json.loads Scenario.api)
    (PDict [("_number", PInt 1)] :: [Scenario.record_2])
    (Scenario.world0 Scenario.t0)
  = (Raise AttributeError, Scenario.world0 Scenario.t0).
Proof.
  apply (record_without_owner unit Scenario.two_page_server Json.loads Scenario.api
           [("_number", PInt 1)] [Scenario.record_2]).
  intros x [H | []]. discriminate H.
Defined.

(** X14.  Every record costs its own lookups: when the loop succeeds, the
    requests it sent number one per record plus one per record with a
    submitter, however often the same account occurs. *)
Theorem resolution_requests :
  forall (St : Type) (serve : St -> string -> rest_response * St)
         (json_loads : string -> option value) (self : GerritApi)
         (l l' : list value) (w w' : world St),
    for_each (resolve_commit St serve json_loads self) l w = (Ok l', w') ->
    List.length (requests (trace w'))
    = (List.length (requests (trace w)) + list_sum (map lookups l))%nat.
Proof.
  intros St serve jl self.
  induction l as [|c l IH]; intros l' w w' H; cbn [for_each] in H.
  - injection H as _ <-. cbn. lia.
  - unfold bind at 1 in H.
    destruct (resolve_commit St serve jl self c w) as [[c' | e |] w1] eqn:Ec;
      try discriminate H.
    unfold bind at 1 in H.
    destruct (for_each _ l w1) as [[bs | e |] w2] eqn:Ef; try discriminate H.
    unfold ret in H. injection H as _ <-.
    rewrite (IH bs w1 w2 Ef).
    rewrite (proj2 (resolve_commit_shape St serve jl self c c' w w1 Ec)).
    cbn [map list_sum]. unfold list_sum. cbn [fold_right]. lia.
Qed.

Lemma resolution_requests_witness :
  List.length
    (requests (trace (snd (for_each
                             (resolve_commit unit Scenario.two_page_server
                                Json.loads Scenario.api)
                             [Scenario.record_1; Scenario.record_2]
                             (Scenario.world0 Scenario.t0)))))
  = (List.length (requests (trace (Scenario.world0 Scenario.t0)))
     + list_sum (map lookups [Scenario.record_1; Scenario.record_2]))%nat.
Proof.
  eapply (resolution_requests unit Scenario.two_page_server Json.loads Scenario.api
            [Scenario.record_1; Scenario.record_2]).
  vm_compute. reflexivity.
Defined.

(** ** The query for the projects *)

Lemma repo_set_fresh (all : list (string * repo_details)) (k : string)
      (x : repo_details) :
  ~ In k (map fst all) -> repo_set all k x = (all ++ [(k, x)])%list.
Proof.
  induction all as [|[k0 d0] all IH]; cbn [repo_set map fst app]; intros H.
  - reflexivity.
  - destruct (String.eqb_spec k k0) as [-> | Hne].
    + exfalso. apply H. now left.
    + f_equal. apply IH. intros Hin. apply H. now right.
Qed.

(** On an object whose entries are objects, the loop keeps one entry per
    key, in the order of the answer. *)
Lemma collect_repos_dicts (items : list (string * value)) :
  forall all : list (string * repo_details),
    NoDup (map fst all ++ map fst items) ->
    Forall (fun p => is_dict (snd p) = true) items ->
    collect_repos items all
    = Ok (all ++ map (fun p => (fst p, repo_of (snd p))) items)%list.
Proof.
  induction items as [|[k v] items IH]; intros all Hnd Hd; cbn [collect_repos].
  - cbn [map]. now rewrite app_nil_r.
  - inversion Hd as [|p l Hv Hrest]; subst. cbn [snd] in Hv.
    destruct v as [| | | | | | f]; try discriminate Hv.
    cbn [py_get obind map fst snd].
    cbn [map fst] in Hnd.
    rewrite repo_set_fresh
      by (intros Hin; apply (NoDup_remove_2 _ _ _ Hnd), in_or_app; now left).
    rewrite IH.
    + now rewrite <- app_assoc.
    + rewrite map_app. cbn [map fst]. now rewrite <- app_assoc.
    + exact Hrest.
Qed.

Lemma collect_repos_bad (items : list (string * value)) :
  forall all : list (string * repo_details),
    Exists (fun p => is_dict (snd p) = false) items ->
    collect_repos items all = Raise AttributeError.
Proof.
  induction items as [|[k v] items IH]; intros all H; [inversion H|].
  cbn [collect_repos].
  destruct v as [| | | | | | f]; try reflexivity.
  cbn [py_get obind]. apply IH.
  inversion H as [p l Hp | p l Hl]; subst; [discriminate Hp | exact Hl].
Qed.

Lemma filter_active (kv : list (string * value)) :
  map fst (filter (fun p => py_eq_text (repo_state (snd p)) "ACTIVE")
                  (map (fun p => (fst p, repo_of (snd p))) kv))
  = map fst (filter (fun p => py_eq_text (field (snd p) "state") "ACTIVE") kv).
Proof.
  induction kv as [|[k v] kv IH]; [reflexivity|].
  cbn [map filter fst snd repo_of repo_state].
  destruct (py_eq_text (field v "state") "ACTIVE"); cbn [map fst]; now rewrite IH.
Qed.

Section Projects.

Variable St : Type.
Variable serve : St -> string -> rest_response * St.
Variable json_loads : string -> option value.
Variable self : GerritApi.

Lemma get_all_projects_run (w : world St) :
  get_all_projects St serve json_loads self w
  = let u := gerrit_url self ++ GET_ALL_REPO_URI in
    let w1 := fetched St serve json_loads u w in
    match py_items (decoded json_loads (fst (serve (server w) u))) with
    | Ok items =>
        match collect_repos items [] with
        | Ok all =>
            (Ok all,
             log_to w1 [Log INFO ("List of All repositories : "
                                    ++ py_str (all_repo_value all) ++ " "
                                    ++ str_of_Z (Z.of_nat (List.length all)))])
        | Raise e => (Raise e, w1)
        | OutOfFuel => (OutOfFuel, w1)
        end
    | Raise e => (Raise e, w1)
    | OutOfFuel => (OutOfFuel, w1)
    end.
Proof.
  unfold get_all_projects. cbv zeta. rewrite fetch_run.
  destruct (py_items _) as [items | e |]; reflexivity.
Qed.

End Projects.

(** X15.  When the answer is an object whose entries are objects,
    [get_all_projects] returns one entry per project, in the order of the
    answer, with the [id], the [description] and the [state] of the
    project, each [None] when the project has no such field; it sends one
    request. *)
Theorem get_all_projects_entries :
  forall (St : Type) (serve : St -> string -> rest_response * St)
         (json_loads : string -> option value) (self : GerritApi)
         (w : world St) (kv : list (string * value)),
    decoded json_loads (fst (serve (server w) (gerrit_url self ++ GET_ALL_REPO_URI)))
    = PDict kv ->
    NoDup (map fst kv) ->
    Forall (fun p => is_dict (snd p) = true) kv ->
    exists w',
      get_all_projects St serve json_loads self w
      = (Ok (map (fun p => (fst p, repo_of (snd p))) kv), w')
      /\ requests (trace w')
         = (requests (trace w) ++ [(gerrit_url self ++ GET_ALL_REPO_URI)%string])%list.
Proof.
  intros St serve jl self w kv Hd Hnd Hf.
  rewrite get_all_projects_run. cbv zeta. rewrite Hd. cbn [py_items].
  rewrite (collect_repos_dicts kv [] Hnd Hf). cbn [app].
  eexists. split; [reflexivity|].
  cbn [log_to trace]. rewrite requests_app, requests_fetched. cbn [requests].
  now rewrite app_nil_r.
Qed.

Lemma get_all_projects_entries_witness :
  exists w',
    get_all_projects unit Catalogue.projects_server Json.loads Scenario.api
      (Scenario.world0 Scenario.t0)
    = (Ok (map (fun p => (fst p, repo_of (snd p)))
               [("alpha", Catalogue.alpha); ("beta", Catalogue.beta)]), w')
    /\ requests (trace w')
       = (requests (trace (Scenario.world0 Scenario.t0))
            ++ [(gerrit_url Scenario.api ++ GET_ALL_REPO_URI)%string])%list.
Proof.
  apply (get_all_projects_entries unit Catalogue.projects_server Json.loads
           Scenario.api (Scenario.world0 Scenario.t0)
           [("alpha", Catalogue.alpha); ("beta", Catalogue.beta)]).
  - vm_compute. reflexivity.
  - repeat constructor; cbn; intuition discriminate.
  - repeat constructor.
Defined.

(** X16.  When the answer is not an object - the request failed, the body
    is a list or text - or when one of its entries is not an object,
    [get_all_projects] ends with [AttributeError]. *)
Theorem get_all_projects_not_objects :
  forall (St : Type) (serve : St -> string -> rest_response * St)
         (json_loads : string -> option value) (self : GerritApi)
         (w : world St),
    (is_dict (decoded json_loads
                (fst (serve (server w) (gerrit_url self ++ GET_ALL_REPO_URI))))
     = false
     \/ exists kv,
          decoded json_loads
            (fst (serve (server w) (gerrit_url self ++ GET_ALL_REPO_URI)))
          = PDict kv
          /\ Exists (fun p => is_dict (snd p) = false) kv) ->
    fst (get_all_projects St serve json_loads self w) = Raise AttributeError.
Proof.
  intros St serve jl self w H.
  rewrite get_all_projects_run. cbv zeta.
  destruct H as [H | (kv & Hd & Hex)].
  - destruct (decoded jl _); try reflexivity. discriminate H.
  - rewrite Hd. cbn [py_items]. now rewrite (collect_repos_bad kv [] Hex).
Qed.

Lemma get_all_projects_not_objects_witness :
  fst (get_all_projects unit Catalogue.broken_projects_server Json.loads
         Scenario.api (Scenario.world0 Scenario.t0))
  = Raise AttributeError.
Proof.
  apply (get_all_projects_not_objects unit Catalogue.broken_projects_server
           Json.loads Scenario.api (Scenario.world0 Scenario.t0)).
  right. exists [("alpha", PDict [("id", PStr "alpha")]); ("beta", PNone)].
  split; [vm_compute; reflexivity|].
  right. left. reflexivity.
Defined.

(** X17.  Under the same conditions [get_all_active_projects] returns the
    names of the projects whose [state] is the text [ACTIVE], in the order
    of the answer; a project without a state is not among them. *)
Theorem get_all_active_projects_names :
  forall (St : Type) (serve : St -> string -> rest_response * St)
         (json_loads : string -> option value) (self : GerritApi)
         (w : world St) (kv : list (string * value)),
    decoded json_loads (fst (serve (server w) (gerrit_url self ++ GET_ALL_REPO_URI)))
    = PDict kv ->
    NoDup (map fst kv) ->
    Forall (fun p => is_dict (snd p) = true) kv ->
    fst (get_all_active_projects St serve json_loads self w)
    = Ok (map fst (filter (fun p => py_eq_text (field (snd p) "state") "ACTIVE") kv)).
Proof.
  intros St serve jl self w kv Hd Hnd Hf.
  unfold get_all_active_projects. unfold bind at 1.
  rewrite get_all_projects_run. cbv zeta. rewrite Hd. cbn [py_items].
  rewrite (collect_repos_dicts kv [] Hnd Hf). cbn [app].
  unfold bind, emit, ret. cbn [fst]. now rewrite filter_active.
Qed.

Lemma get_all_active_projects_names_witness :
  fst (get_all_active_projects unit Catalogue.projects_server Json.loads
         Scenario.api (Scenario.world0 Scenario.t0))
  = Ok (map fst (filter (fun p => py_eq_text (field (snd p) "state") "ACTIVE")
                        [("alpha", Catalogue.alpha); ("beta", Catalogue.beta)])).
Proof.
  apply (get_all_active_projects_names unit Catalogue.projects_server Json.loads
           Scenario.api (Scenario.world0 Scenario.t0)
           [("alpha", Catalogue.alpha); ("beta", Catalogue.beta)]).
  - vm_compute. reflexivity.
  - repeat constructor; cbn; intuition discriminate.
  - repeat constructor.
Defined.

(** ** The query for the accounts *)

Section Accounts.

Variable St : Type.
Variable serve : St -> string -> rest_response * St.
Variable json_loads : string -> option value.
Variable self : GerritApi.




End Accounts.






